(** * hive-jwt-auth: token signing, expiration resolution and the public-key
    registry client, embedded from the TypeScript sources.

    Layout of the development:
    - [JS]: the fragment of the JavaScript runtime the sources rely on
      (binary64 numbers with NaN and the infinities, thrown values,
      template strings, [parseInt], objects as ordered property lists);
    - [Validation]: [utils/validation] ([isNumeric], [checkExpiration],
      [checkExpiresIn], [checkManifestOrArray], [checkEndpoint]);
    - [Jsonwebtoken]: the part of the external [jsonwebtoken] package that
      [HiveJwtCreator] calls;
    - [HiveJwtCreator], [HivePublicKeyServiceClient], [Cli]: the classes and
      the command handlers;
    - the properties: binary64 arithmetic first, then one section per
      component. *)

From Stdlib Require Import ZArith QArith Qround Qabs Qpower Qreduction.
From Stdlib Require Import String Ascii List Bool Lia Lqa.
From Stdlib Require Import DecimalString.
From Stdlib Require Qcanon.
Import ListNotations.
Open Scope string_scope.

(* ===================================================================== *)
(** ** The JavaScript runtime fragment *)
(* ===================================================================== *)

Module JS.

(** A JavaScript [Number]: a binary64 value.  A finite one is given by
    the rational it denotes; NaN and the two infinities are values of their
    own, because the sources branch on [isNaN].  The sign of zero is not
    tracked.  The operations below return the rationals that binary64
    has, in lowest terms: a sum or a quotient is rounded to the nearest of
    them, ties to the even significand ([round64]). *)
Inductive number : Type :=
| Fin (q : Q)
| PosInf
| NegInf
| NaN.

Definition of_Z (z : Z) : number := Fin (inject_Z z).

Definition isNaN (n : number) : bool :=
  match n with NaN => true | _ => false end.

Definition neg (a : number) : number :=
  match a with
  | Fin x => Fin (- x)
  | PosInf => NegInf
  | NegInf => PosInf
  | NaN => NaN
  end.

(** *** Rounding to binary64 *)

Definition pow2 (e : Z) : Q := (2 ^ e)%Q.

(** [Number.MAX_VALUE], (2^53 - 1) * 2^971. *)
Definition max_double : Q := inject_Z (2 ^ 1024 - 2 ^ 971).

(** From here on a sum or a quotient rounds to [Infinity]: half a unit in
    the last place above [max_double]. *)
Definition overflow_threshold : Q := inject_Z (2 ^ 1024 - 2 ^ 970).

(** The binary order of magnitude of a positive rational [q]: the [l]
    with 2^l <= q < 2^(l+1).  The difference of the bit lengths of
    numerator and denominator is [l] or [l + 1]; the test tells which. *)
Definition ilog2 (q : Q) : Z :=
  let k := (Z.log2 (Qnum q) - Z.log2 (Zpos (Qden q)))%Z in
  if Qle_bool (pow2 k) q then k else (k - 1)%Z.

(** The nearest integer, ties to the even one. *)
Definition round_half_even (x : Q) : Z :=
  let f := Qfloor x in
  match Qcompare (x - inject_Z f) (1 # 2) with
  | Lt => f
  | Gt => (f + 1)%Z
  | Eq => if Z.even f then f else (f + 1)%Z
  end.

(** The exponent of the unit in the last place of the binary64 values
    around a positive [q]: 53 significant bits, and no less than -1074,
    the exponent of the subnormal numbers. *)
Definition ulp_exponent (q : Q) : Z := Z.max (ilog2 q - 52) (-1074).

Definition significand (q : Q) : Z :=
  round_half_even (q / pow2 (ulp_exponent q)).

(** The binary64 value nearest to a positive rational. *)
Definition round_pos (q : Q) : number :=
  let v := (inject_Z (significand q) * pow2 (ulp_exponent q))%Q in
  if Qle_bool (pow2 1024) v then PosInf else Fin (Qred v).

(** The binary64 value nearest to a rational: what an arithmetic
    operation returns for the exact result [q]. *)
Definition round64 (q : Q) : number :=
  let r := Qred q in
  match Qcompare r 0 with
  | Eq => Fin 0
  | Gt => round_pos r
  | Lt => neg (round_pos (- r))
  end.

(** A rational within the range of the finite Numbers.  No Number is
    outside of it (a sum or a quotient that would be is an infinity), and
    the operations never return such a [Fin q]; it can only be handed in
    from outside, by the clock or the duration parser of a property, and
    [isFinite] and [isInteger] do not take it for a finite Number. *)
Definition in_range (q : Q) : bool := Qle_bool (Qabs q) max_double.

(** [Number.isFinite]. *)
Definition isFinite (n : number) : bool :=
  match n with Fin q => in_range q | _ => false end.

(** [Number.isInteger]. *)
Definition isInteger (n : number) : bool :=
  match n with
  | Fin q => in_range q && Qeq_bool q (inject_Z (Qfloor q))
  | _ => false
  end.

(** [a + b] on numbers. *)
Definition add (a b : number) : number :=
  match a, b with
  | NaN, _ | _, NaN => NaN
  | PosInf, NegInf | NegInf, PosInf => NaN
  | PosInf, _ | _, PosInf => PosInf
  | NegInf, _ | _, NegInf => NegInf
  | Fin x, Fin y => round64 (x + y)
  end.

(** [a / b] on numbers (a zero divisor is taken as [+0]). *)
Definition div (a b : number) : number :=
  match a, b with
  | NaN, _ | _, NaN => NaN
  | (PosInf | NegInf), (PosInf | NegInf) => NaN
  | PosInf, Fin y => if Qlt_le_dec y 0 then NegInf else PosInf
  | NegInf, Fin y => if Qlt_le_dec y 0 then PosInf else NegInf
  | Fin _, (PosInf | NegInf) => Fin 0
  | Fin x, Fin y =>
      if Qeq_bool y 0 then
        (if Qeq_bool x 0 then NaN
         else if Qlt_le_dec x 0 then NegInf else PosInf)
      else round64 (x / y)
  end.

(** [Math.floor]. *)
Definition Math_floor (a : number) : number :=
  match a with
  | Fin x => of_Z (Qfloor x)
  | other => other
  end.

(** *** Conversion of a mathematical integer to the nearest Number

    [parseInt] yields the binary64 value nearest to the integer it reads
    (ties to even): exact below 2^53, rounded to 53 significant bits above,
    [Infinity] from 2^1024 - 2^970 on. *)
Definition round_even (m r half : Z) : Z :=
  if (r <? half)%Z then m
  else if (half <? r)%Z then (m + 1)%Z
  else if Z.even m then m else (m + 1)%Z.

Definition nearest_double (v : Z) : number :=
  if (v <? 2 ^ 53)%Z then of_Z v
  else
    let e := (Z.log2 v - 52)%Z in
    let m := round_even (v / 2 ^ e) (v mod 2 ^ e) (2 ^ (e - 1)) in
    let r := (m * 2 ^ e)%Z in
    if (2 ^ 1024 <=? r)%Z then PosInf else of_Z r.

Definition number_of_Z (v : Z) : number :=
  if (v <? 0)%Z then neg (nearest_double (- v)) else nearest_double v.

(** *** Strings *)

(** [\d] of a regular expression without the unicode flag: [0-9]. *)
Definition is_digit (c : ascii) : bool :=
  let n := nat_of_ascii c in (48 <=? n)%nat && (n <=? 57)%nat.

Definition digit_value (c : ascii) : Z := (Z.of_nat (nat_of_ascii c) - 48)%Z.

(** White space skipped by [parseInt] (the ASCII part of it). *)
Definition is_space (c : ascii) : bool :=
  let n := nat_of_ascii c in
  ((9 <=? n)%nat && (n <=? 13)%nat) || (n =? 32)%nat.

Fixpoint trim_start (s : string) : string :=
  match s with
  | String c r => if is_space c then trim_start r else s
  | EmptyString => s
  end.

(** The longest prefix of decimal digits. *)
Fixpoint digits_prefix (s : string) : list ascii :=
  match s with
  | String c r => if is_digit c then c :: digits_prefix r else []
  | EmptyString => []
  end.

Definition decimal_value (ds : list ascii) : Z :=
  fold_left (fun acc c => (10 * acc + digit_value c)%Z) ds 0%Z.

(** [parseInt(s, 10)]: leading white space, an optional sign, then the
    longest run of digits; NaN when there is no digit. *)
Definition parseInt10 (s : string) : number :=
  let s1 := trim_start s in
  let '(negative, s2) :=
    match s1 with
    | String "-" r => (true, r)
    | String "+" r => (false, r)
    | _ => (false, s1)
    end in
  match digits_prefix s2 with
  | [] => NaN
  | ds => let v := decimal_value ds in
          number_of_Z (if negative then (- v)%Z else v)
  end.

(** [`${x}`] for an optional string argument: a missing argument is the
    value [undefined], which a template literal renders as the word. *)
Definition template (x : option string) : string :=
  match x with
  | Some s => s
  | None => "undefined"
  end.

(** [Array.prototype.join]. *)
Fixpoint join (sep : string) (l : list string) : string :=
  match l with
  | [] => EmptyString
  | [x] => x
  | x :: r => x ++ sep ++ join sep r
  end.

(** A parameter of type [string | number]. *)
Inductive string_or_number : Type :=
| Str (s : string)
| Num (n : number).

(** *** Objects *)

(** JSON values found in token headers and claims. *)
Inductive json : Type :=
| JString (s : string)
| JNumber (n : number)
| JStrings (items : list string).

(** An object literal: its properties in insertion order. *)
Definition object : Type := list (string * json).

Fixpoint get_property (o : object) (key : string) : option json :=
  match o with
  | [] => None
  | (k, v) :: r => if String.eqb k key then Some v else get_property r key
  end.

(** [o[key] = v] on an object that does not have [key] yet appends the
    property; on one that has it, the value is replaced in place. *)
Fixpoint set_property (o : object) (key : string) (v : json) : object :=
  match o with
  | [] => [(key, v)]
  | (k, w) :: r =>
      if String.eqb k key then (k, v) :: r else (k, w) :: set_property r key v
  end.

(** *** Values carried by HTTP responses and by thrown errors *)

(** The body of an HTTP response ([response.data], of type [unknown] in the
    error handler): an array of messages, a JSON object, an array of
    objects, or any other value given by its string rendering. *)
Inductive http_data : Type :=
| DataArray (items : list string)
| DataObject (o : object)
| DataObjects (items : list object)
| DataOther (rendered : string).

(** [`${errors}`] after the [Array.isArray] test of the validation error:
    arrays are joined, an object renders as its tag. *)
Definition render_errors (errors : http_data) : string :=
  match errors with
  | DataArray items => join "; " items
  | DataObjects items => join "; " (map (fun _ => "[object Object]") items)
  | DataObject _ => "[object Object]"
  | DataOther rendered => rendered
  end.

Record axios_response : Type := mkResponse {
  data : http_data;
  status : Z
}.

(** Thrown values.  The four registry error classes are those of
    [HivePublicKeyServiceClient]; [AxiosError] is what [axios.isAxiosError]
    recognises, with its optional [response]; [Error] is [new Error(msg)];
    [AggregateError] wraps causes; [OtherThrown] is any other value. *)
#[warnings="-register-all"]
Inductive exn : Type :=
| Error (message : string)
| HiveAuthorizationError
| HivePublicKeyValidationError (errors : http_data)
| HivePublicKeyNotFoundError (partnerId : string) (keyId : option string)
| HivePublicKeyDeletedError (partnerId : string) (keyId : option string)
| AxiosError (code : string) (response : option axios_response)
| AggregateError (errors : list exn) (message : string)
| OtherThrown (description : string).

(** The [message] each constructor passes to [super].  For a response
    whose status it turns down, axios composes
    [Request failed with status code N]; a failure before any response
    keeps the message of the transport, of which the model has the error
    code only. *)
Definition message (e : exn) : string :=
  match e with
  | Error m => m
  | HiveAuthorizationError =>
      "Authorization required: missing or invalid partner token"
  | HivePublicKeyValidationError errors =>
      "Public key validation error: " ++ render_errors errors
  | HivePublicKeyNotFoundError partnerId keyId =>
      "Public key not found: " ++ partnerId ++ "/" ++ template keyId
  | HivePublicKeyDeletedError partnerId keyId =>
      "Public key has been deleted: " ++ partnerId ++ "/" ++ template keyId
  | AxiosError code (Some response) =>
      "Request failed with status code "
      ++ NilZero.string_of_int (Z.to_int (status response))
  | AxiosError code None => code
  | AggregateError _ m => m
  | OtherThrown description => description
  end.

(** The [name] property: set by the error classes of the registry client,
    inherited by the built-in ones; unknown for any other thrown value. *)
Definition name (e : exn) : option string :=
  match e with
  | Error _ => Some "Error"
  | HiveAuthorizationError => Some "HiveAuthorizationError"
  | HivePublicKeyValidationError _ => Some "HiveValidationError"
  | HivePublicKeyNotFoundError _ _ => Some "HivePublicKeyNotFoundError"
  | HivePublicKeyDeletedError _ _ => Some "HivePublicKeyDeletedError"
  | AxiosError _ _ => Some "AxiosError"
  | AggregateError _ _ => Some "AggregateError"
  | OtherThrown _ => None
  end.

(** The outcome of a call: a value, or a thrown one. *)
Inductive result (A : Type) : Type :=
| Ok (a : A)
| Throw (e : exn).
Arguments Ok {A} a.
Arguments Throw {A} e.

Definition bind {A B} (c : result A) (k : A -> result B) : result B :=
  match c with
  | Ok a => k a
  | Throw e => Throw e
  end.

(** [try { c } catch (error) { handler(error) }]. *)
Definition try_catch {A} (c : result A) (handler : exn -> result A) : result A :=
  match c with
  | Ok a => Ok a
  | Throw e => handler e
  end.

End JS.

Import JS.

Declare Scope js_scope.
Delimit Scope js_scope with js.
Notation "x <- c ;; k" := (bind c (fun x => k))
  (at level 61, c at next level, right associativity) : js_scope.
Open Scope js_scope.

(* ===================================================================== *)
(** ** utils/validation *)
(* ===================================================================== *)

Module Validation.

(** What the external duration parser [ms] hands back for a string: a
    number of milliseconds, or [undefined] when the string has no duration
    syntax. *)
Inductive ms_value : Type :=
| MsNumber (n : number)
| MsUndefined.

(** [ToNumber] as applied by [+] and [/] to the parser's answer. *)
Definition ToNumber (v : ms_value) : number :=
  match v with
  | MsNumber n => n
  | MsUndefined => NaN
  end.

(** [checkPartnerToken]. *)
Definition checkPartnerToken (partnerToken : option string) : result unit :=
  match partnerToken with
  | None => Throw (Error "No HIVE_PARTNER_TOKEN environmental variable set")
  | Some t =>
      if String.eqb t EmptyString
      then Throw (Error "No HIVE_PARTNER_TOKEN environmental variable set")
      else Ok tt
  end.

(** [isNumeric]: the test of the regular expression [^\d+$], one digit or
    more and nothing else. *)
Definition isNumeric (value : string) : bool :=
  match value with
  | EmptyString => false
  | _ => forallb is_digit (list_ascii_of_string value)
  end.

Section Resolvers.

(** The [ms] package (external): it may also throw, as it does on the
    empty string. *)
Variable ms : string -> result ms_value.
(** [Date.now()], milliseconds since the epoch. *)
Variable now : Z.

(** [checkExpiration]: the absolute mode. *)
Definition checkExpiration (expiration : string) : result number :=
  exp <- (if isNumeric expiration then Ok (parseInt10 expiration)
          else d <- ms expiration ;;
               Ok (Math_floor (div (add (of_Z now) (ToNumber d)) (of_Z 1000)))) ;;
  if isNaN exp then Throw (Error ("Invalid expiration: " ++ expiration))
  else Ok exp.

(** [checkExpiresIn]: the relative mode. *)
Definition checkExpiresIn (expiration : string) : result number :=
  exp <- (if isNumeric expiration then Ok (parseInt10 expiration)
          else d <- ms expiration ;;
               Ok (Math_floor (div (ToNumber d) (of_Z 1000)))) ;;
  if isNaN exp then Throw (Error ("Invalid expiresIn: " ++ expiration))
  else Ok exp.

End Resolvers.

(** [checkManifestOrArray].  [regexes] is an optional parameter; an array,
    even an empty one, is truthy.  With an array the first test decides
    (the second one, [!regexes], is false); without one the first test is
    false and the second decides. *)
Definition checkManifestOrArray (manifest : list string)
    (regexes : option (list string)) : result object :=
  match regexes with
  | Some r =>
      if (length manifest =? 0)%nat && (0 <? length r)%nat
      then Ok [("man", JStrings manifest); ("regexes", JStrings r)]
      else Throw (Error "Only one of manifest or regex list can be defined.")
  | None =>
      if (0 <? length manifest)%nat
      then Ok [("man", JStrings manifest)]
      else Throw (Error "Only one of manifest or regex list can be defined.")
  end.

(** [checkEndpoint]. *)
Definition checkEndpoint (endpoint : string) : result string :=
  if String.eqb endpoint "prod" || String.eqb endpoint "test"
  then Ok endpoint
  else Throw (Error ("Invalid endpoint: " ++ endpoint)).

End Validation.

(* ===================================================================== *)
(** ** The jsonwebtoken package (external) *)
(* ===================================================================== *)

Module Jsonwebtoken.

(** The options [HiveJwtCreator] passes to [sign]. *)
Record SignOptions : Type := mkOptions {
  algorithm : string;
  keyid : string;
  expiresIn : string_or_number
}.

Definition dquote : string := String (ascii_of_nat 34) EmptyString.

Definition expiresIn_invalid : string :=
  dquote ++ "expiresIn" ++ dquote
  ++ " should be a number of seconds or string representing a timespan".

Definition expiresIn_unparsed : string :=
  expiresIn_invalid ++ " eg: " ++ dquote ++ "1d" ++ dquote ++ ", "
  ++ dquote ++ "20h" ++ dquote ++ ", 60".

Section Sign.

Variable ms : string -> result Validation.ms_value.
Variable now : Z.
(** base64url of the JSON text of an object (JWS compact serialization). *)
Variable encode : object -> string.
(** The signer of the [jwa] layer: algorithm, key material and signing
    input to the base64url signature; it throws on a key it cannot use. *)
Variable jwa : string -> string -> string -> result string.

(** [timespan(time, iat)] of the package: [undefined] when [ms] does not
    parse the string. *)
Definition timespan (time : string_or_number) (iat : number)
    : result (option number) :=
  match time with
  | Str s =>
      milliseconds <- ms s ;;
      match milliseconds with
      | Validation.MsUndefined => Ok None
      | Validation.MsNumber d =>
          Ok (Some (Math_floor (add iat (div d (of_Z 1000)))))
      end
  | Num n => Ok (Some (add iat n))
  end.

(** [sign(payload, secretOrPrivateKey, options)] for an object payload
    that carries none of the registered claims, as [HiveJwtCreator] builds
    it: the header is [{alg, typ, kid}], [expiresIn] must be an integer
    or a non-empty string, [iat] is the clock in whole seconds, [exp] is
    [timespan (expiresIn, iat)], and the token is the compact
    serialization [header.payload.signature].

    The clock in whole seconds is [Math.floor(Date.now() / 1000)].
    [Date.now()] is a time value, a whole number of milliseconds below
    2^53, and on those the floor of the binary64 quotient is the integer
    quotient ([clock_seconds] below), which the model takes. *)
Definition sign (payload : object) (secretOrPrivateKey : string)
    (options : SignOptions) : result string :=
  let header := [("alg", JString (algorithm options));
                 ("typ", JString "JWT");
                 ("kid", JString (keyid options))] in
  if negb (match expiresIn options with
           | Num n => isInteger n
           | Str s => negb (String.eqb s EmptyString)
           end)
  then Throw (Error expiresIn_invalid)
  else
    let timestamp := of_Z (now / 1000) in
    let payload := set_property payload "iat" (JNumber timestamp) in
    exp <- timespan (expiresIn options) timestamp ;;
    match exp with
    | None => Throw (Error expiresIn_unparsed)
    | Some exp =>
        let payload := set_property payload "exp" (JNumber exp) in
        let input := encode header ++ "." ++ encode payload in
        signature <- jwa (algorithm options) secretOrPrivateKey input ;;
        Ok (input ++ "." ++ signature)
    end.

End Sign.

End Jsonwebtoken.

(* ===================================================================== *)
(** ** lib/HiveJwtCreator *)
(* ===================================================================== *)

Module HiveJwtCreator.

Record t : Type := mk {
  partnerId : string;
  privateKey : string
}.

Section Creator.

Variable ms : string -> result Validation.ms_value.
Variable now : Z.
Variable encode : object -> string.
Variable jwa : string -> string -> string -> result string.
(** [fs.promises.readFile]: the contents of a file, or the error thrown. *)
Variable readFile : string -> result string.

(** [HiveJwtCreator.create] (and [createSync], which differs by the
    blocking read only). *)
Definition create (partnerId privateKeyFilename : string) : result t :=
  try_catch
    (privateKey <- readFile privateKeyFilename ;;
     Ok (mk partnerId privateKey))
    (fun ex =>
       Throw (AggregateError [ex]
                ("Could not read file " ++ privateKeyFilename))).

(** The claims object [sign] builds. *)
Definition sign_data (this : t) (customerId videoId : string)
    (manifests : list string) : object :=
  [("iss", JString (partnerId this));
   ("sub", JString videoId);
   ("ver", JString "1.0");
   ("aud", JString "https://hivestreaming.com");
   ("cid", JString customerId);
   ("man", JStrings manifests)].

(** [sign(keyId, customerId, videoId, manifests, expiresIn)]. *)
Definition sign (this : t) (keyId customerId videoId : string)
    (manifests : list string) (expiresIn : string_or_number)
    : result string :=
  let data := sign_data this customerId videoId manifests in
  Jsonwebtoken.sign ms now encode jwa data (privateKey this)
    (Jsonwebtoken.mkOptions "RS256" keyId expiresIn).

(** The claims object [signReporting] builds. *)
Definition reporting_data (this : t) (customerId videoId : string)
    : object :=
  [("iss", JString (partnerId this));
   ("sub", JString videoId);
   ("ver", JString "1.0");
   ("aud", JString "https://hivestreaming.com");
   ("cid", JString customerId);
   ("act", JString "reporting")].

(** [signReporting(keyId, customerId, videoId, expiresIn, endpoint)].
    The parameter is typed ['test' | 'prod']; the template literal itself
    works on any string. *)
Definition signReporting (this : t) (keyId customerId videoId : string)
    (expiresIn : string_or_number) (endpoint : string) : result string :=
  let data := reporting_data this customerId videoId in
  token <- Jsonwebtoken.sign ms now encode jwa data (privateKey this)
             (Jsonwebtoken.mkOptions "RS256" keyId expiresIn) ;;
  Ok ("https://api"
      ++ (if String.eqb endpoint "prod" then EmptyString
          else "-" ++ endpoint)
      ++ ".hivestreaming.com/v1/url-redirect/adminportal-jwt/" ++ token).

End Creator.

End HiveJwtCreator.

(* ===================================================================== *)
(** ** lib/HivePublicKeyServiceClient *)
(* ===================================================================== *)

Module HivePublicKeyServiceClient.

(** [PublicKeyStorePayload]: the JSON body of a create request. *)
Record PublicKeyStorePayload : Type := mkPayload {
  payload_partnerId : string;
  payload_keyId : string;
  payload_exponent : string;
  payload_modulus : string;
  payload_expiration : number
}.

(** The requests the client issues through its [Axios] instance; the URL is
    relative to the instance's [baseURL]. *)
Inductive request : Type :=
| GET (url : string)
| POST (url : string) (body : PublicKeyStorePayload)
| DELETE (url : string).

(** The [Axios] instance, as [axios.create] configures it. *)
Record Axios : Type := mkAxios {
  baseURL : string;
  headers : list (string * string)
}.

Record t : Type := mk {
  client : Axios;
  partnerId : string
}.

(** The constructor; [endpoint] is typed ['prod' | 'test'] and defaults to
    ['prod']. *)
Definition new (partnerId partnerToken endpoint : string) : t :=
  let baseURL := "https://api"
                 ++ (if String.eqb endpoint "prod" then EmptyString
                     else "-" ++ endpoint)
                 ++ ".hivestreaming.com/v1" in
  mk (mkAxios baseURL [("X-Hive-Partner-Token", partnerToken);
                       ("Content-Type", "application/json")])
     partnerId.

(** A method of the client runs against the network: it yields the
    requests it sent, in order, and its outcome. *)
Definition io (A : Type) : Type := (list request * result A)%type.

Definition io_ret {A} (a : A) : io A := ([], Ok a).

Definition io_lift {A} (c : result A) : io A := ([], c).

Definition io_bind {A B} (c : io A) (k : A -> io B) : io B :=
  match c with
  | (sent, Ok a) => let '(sent', r) := k a in ((sent ++ sent')%list, r)
  | (sent, Throw e) => (sent, Throw e)
  end.

(** [try { c } catch (error) { handler(error) }] around network calls. *)
Definition io_catch {A} (c : io A) (handler : exn -> io A) : io A :=
  match c with
  | (sent, Ok a) => (sent, Ok a)
  | (sent, Throw e) => let '(sent', r) := handler e in ((sent ++ sent')%list, r)
  end.

Definition sent {A} (c : io A) : list request := fst c.
Definition outcome {A} (c : io A) : result A := snd c.

Notation "x <~ c ;; k" := (io_bind c (fun x => k))
  (at level 61, c at next level, right associativity) : js_scope.

Section Client.

Variable ms : string -> result Validation.ms_value.
Variable now : Z.
(** The transport: what the remote service answers to a request of an
    [Axios] instance, a response or a thrown error ([AxiosError] for a
    status outside 2xx, carrying the response). *)
Variable axios : Axios -> request -> result axios_response.

Definition send (this : t) (r : request) : io axios_response :=
  ([r], axios (client this) r).

(** [axiosErrorHandler(error, keyId?)]: it never returns. *)
Definition axiosErrorHandler {A} (this : t) (error : exn)
    (keyId : option string) : io A :=
  match error with
  | AxiosError _ (Some response) =>
      if (status response =? 400)%Z then
        io_lift (Throw (HivePublicKeyValidationError (data response)))
      else if (status response =? 403)%Z then
        io_lift (Throw HiveAuthorizationError)
      else if (status response =? 404)%Z then
        io_lift (Throw (HivePublicKeyNotFoundError (partnerId this) keyId))
      else if (status response =? 410)%Z then
        io_lift (Throw (HivePublicKeyDeletedError (partnerId this) keyId))
      else io_lift (Throw error)
  | _ => io_lift (Throw error)
  end.

(** [get(keyId)]. *)
Definition get (this : t) (keyId : string) : io http_data :=
  io_catch
    (res <~ send this (GET ("/publickey/" ++ partnerId this ++ "/" ++ keyId)) ;;
     io_ret (data res))
    (fun error => axiosErrorHandler this error (Some keyId)).

(** [list(includeDeleted)]. *)
Definition list (this : t) (includeDeleted : bool) : io http_data :=
  io_catch
    (res <~ send this
              (GET ("/publickey/" ++ partnerId this ++ "?includeDeleted="
                    ++ (if includeDeleted then "true" else "false"))) ;;
     io_ret (data res))
    (fun error => axiosErrorHandler this error None).

(** [create(partnerId, keyId, exponent, modulus, expiration)]. *)
Definition create (this : t) (partnerId keyId exponent modulus : string)
    (expiration : string_or_number) : io unit :=
  io_catch
    (exp <~ io_lift (match expiration with
                     | Str s => Validation.checkExpiration ms now s
                     | Num n => Ok n
                     end) ;;
     let payload := mkPayload partnerId keyId exponent modulus exp in
     _ <~ send this (POST "/publickey" payload) ;;
     io_ret tt)
    (fun error => axiosErrorHandler this error (Some keyId)).

(** [delete(keyId)]. *)
Definition delete (this : t) (keyId : string) : io unit :=
  io_catch
    (_ <~ send this (DELETE ("/publickey/" ++ partnerId this ++ "/" ++ keyId)) ;;
     io_ret tt)
    (fun error => axiosErrorHandler this error None).

End Client.

End HivePublicKeyServiceClient.

(* ===================================================================== *)
(** ** The command line: the create-jwt and reporting-url commands *)
(* ===================================================================== *)

Module Cli.

(** [CreateJwtArguments]. *)
Record CreateJwtArguments : Type := mkCreateJwt {
  jwt_file : string;
  jwt_partnerId : string;
  jwt_customerId : string;
  jwt_keyId : string;
  jwt_expiresIn : string;
  jwt_videoId : string;
  jwt_manifest : list string;
  jwt_eventName : option string;
  jwt_regexes : option (list string)
}.

(** [ReportingUrlArguments]. *)
Record ReportingUrlArguments : Type := mkReportingUrl {
  url_file : string;
  url_partnerId : string;
  url_customerId : string;
  url_keyId : string;
  url_expiresIn : string;
  url_videoId : string;
  url_endpoint : string
}.

Section Commands.

Variable ms : string -> result Validation.ms_value.
Variable now : Z.
Variable encode : object -> string.
Variable jwa : string -> string -> string -> result string.
Variable readFile : string -> result string.

(** The [check] callback of create-jwt. *)
Definition create_jwt_check (argv : CreateJwtArguments)
    : result CreateJwtArguments :=
  _ <- Validation.checkExpiresIn ms (jwt_expiresIn argv) ;;
  Ok argv.

(** The handler of create-jwt; its value is the line it prints.  The call
    passes seven arguments to [sign], which declares five: the runtime
    drops [eventName] and [regexes]. *)
Definition create_jwt_handler (argv : CreateJwtArguments) : result string :=
  let '(mkCreateJwt file partnerId customerId keyId expiresIn videoId
          manifest eventName regexes) := argv in
  jwtCreator <- HiveJwtCreator.create readFile partnerId file ;;
  jwt <- (fun (_ : option string) (_ : option (list string)) =>
            HiveJwtCreator.sign ms now encode jwa jwtCreator
              keyId customerId videoId manifest (Str expiresIn))
         eventName regexes ;;
  Ok jwt.

(** The [check] callback of reporting-url. *)
Definition reporting_url_check (argv : ReportingUrlArguments)
    : result ReportingUrlArguments :=
  _ <- Validation.checkExpiresIn ms (url_expiresIn argv) ;;
  _ <- Validation.checkEndpoint (url_endpoint argv) ;;
  Ok argv.

(** The handler of reporting-url; its value is the line it prints. *)
Definition reporting_url_handler (argv : ReportingUrlArguments)
    : result string :=
  let '(mkReportingUrl file partnerId customerId keyId expiresIn videoId
          endpoint) := argv in
  exp <- Validation.checkExpiresIn ms expiresIn ;;
  jwtCreator <- HiveJwtCreator.create readFile partnerId file ;;
  endpoint <- Validation.checkEndpoint endpoint ;;
  url <- HiveJwtCreator.signReporting ms now encode jwa jwtCreator
           keyId customerId videoId (Num exp) endpoint ;;
  Ok url.

End Commands.

End Cli.

(* ===================================================================== *)
(** ** A concrete environment, to run the model on *)
(* ===================================================================== *)

Module Sample.

Import Validation.

(** A duration parser that knows the strings of the documentation
    (["2 days"], ["10h"], ["7d"]), answers [undefined] to the others and
    throws on the empty string, as [ms] does. *)
Definition ms (s : string) : result ms_value :=
  if String.eqb s EmptyString then
    Throw (Error ("val is not a non-empty string or a valid number. val="
                  ++ Jsonwebtoken.dquote ++ Jsonwebtoken.dquote))
  else if String.eqb s "2 days" then Ok (MsNumber (of_Z 172800000))
  else if String.eqb s "10h" then Ok (MsNumber (of_Z 36000000))
  else if String.eqb s "7d" then Ok (MsNumber (of_Z 604800000))
  else Ok MsUndefined.

(** A clock reading: 2023-11-14T22:13:20.500Z. *)
Definition now : Z := 1700000000500.

Definition render_number (n : number) : string :=
  match n with
  | Fin q =>
      NilZero.string_of_int (Z.to_int (Qnum q))
      ++ (if Pos.eqb (Qden q) 1 then EmptyString
          else "/" ++ NilZero.string_of_uint (Pos.to_uint (Qden q)))
  | PosInf | NegInf | NaN => "null"
  end.

Definition render_json (v : json) : string :=
  match v with
  | JString s => s
  | JNumber n => render_number n
  | JStrings items => "[" ++ join "," items ++ "]"
  end.

(** A readable stand-in for base64url(JSON(object)). *)
Definition encode (o : object) : string :=
  "{" ++ join "," (map (fun kv => fst kv ++ ":" ++ render_json (snd kv)) o)
  ++ "}".

(** A signer that accepts any non-empty key. *)
Definition jwa (alg key input : string) : result string :=
  if String.eqb key EmptyString then Throw (Error "secretOrPrivateKey must have a value")
  else Ok ("sig(" ++ alg ++ ")").

(** A file system with one key file. *)
Definition readFile (file : string) : result string :=
  if String.eqb file "private.pem" then Ok "PEM"
  else Throw (Error ("ENOENT: no such file or directory, open " ++ file)).

(** A registry that answers every request with the given error status and
    body; axios gives the codes [ERR_BAD_REQUEST] to the statuses below 500
    and [ERR_BAD_RESPONSE] to the others. *)
Definition axios_status (st : Z) (body : http_data)
    (_ : HivePublicKeyServiceClient.Axios)
    (_ : HivePublicKeyServiceClient.request) : result axios_response :=
  Throw (AxiosError
           (if (st <? 500)%Z then "ERR_BAD_REQUEST" else "ERR_BAD_RESPONSE")
           (Some (mkResponse body st))).

(** A registry that accepts every request. *)
Definition axios_ok (_ : HivePublicKeyServiceClient.Axios)
    (_ : HivePublicKeyServiceClient.request) : result axios_response :=
  Ok (mkResponse (DataOther EmptyString) 200).

(** A connection that fails before any response arrives. *)
Definition axios_down (_ : HivePublicKeyServiceClient.Axios)
    (_ : HivePublicKeyServiceClient.request) : result axios_response :=
  Throw (AxiosError "ECONNREFUSED" None).

(** The client of partner [p1] against the test endpoint. *)
Definition registry : HivePublicKeyServiceClient.t :=
  HivePublicKeyServiceClient.new "p1" "secret" "test".

(** A digit string of 310 characters: beyond the range of binary64. *)
Definition nines : string := string_of_list_ascii (repeat "9"%char 310).

End Sample.

(* ===================================================================== *)
(** ** Notions of the specification, for stating the properties *)
(* ===================================================================== *)

Module Spec.

Import Validation.

(** The value an expiration string stands for before any check: the
    integer read from a digit string, else the parser's answer as a number. *)
Definition resolved_value (ms : string -> result ms_value) (s : string)
    : result number :=
  if isNumeric s then Ok (parseInt10 s)
  else d <- ms s ;; Ok (ToNumber d).

(** The header of a token signed with RS256 for the key [keyId]. *)
Definition jwt_header (keyId : string) : object :=
  [("alg", JString "RS256"); ("typ", JString "JWT"); ("kid", JString keyId)].

(** The error taxonomy of the registry client. *)
Inductive error_kind : Type :=
| ValidationError
| AuthorizationError
| NotFoundError
| DeletedError
| TransportError.

Definition kind_of_status (st : Z) : error_kind :=
  if (st =? 400)%Z then ValidationError
  else if (st =? 403)%Z then AuthorizationError
  else if (st =? 404)%Z then NotFoundError
  else if (st =? 410)%Z then DeletedError
  else TransportError.

Definition kind_of_error (e : exn) : error_kind :=
  match e with
  | HivePublicKeyValidationError _ => ValidationError
  | HiveAuthorizationError => AuthorizationError
  | HivePublicKeyNotFoundError _ _ => NotFoundError
  | HivePublicKeyDeletedError _ _ => DeletedError
  | _ => TransportError
  end.

(** The error a method of the client ended with, if it threw. *)
Definition thrown {A} (c : HivePublicKeyServiceClient.io A) : option exn :=
  match HivePublicKeyServiceClient.outcome c with
  | Throw e => Some e
  | Ok _ => None
  end.

Section Calls.

Variable ms : string -> result ms_value.
Variable now : Z.
Variable axios : HivePublicKeyServiceClient.Axios ->
                 HivePublicKeyServiceClient.request -> result axios_response.

(** The calls of the four operations of a client: each with the requests
    it sent and the error it ended with. *)
Inductive crud_call (this : HivePublicKeyServiceClient.t)
  : list HivePublicKeyServiceClient.request -> option exn -> Prop :=
| call_get (keyId : string) :
    let c := HivePublicKeyServiceClient.get axios this keyId in
    crud_call this (HivePublicKeyServiceClient.sent c) (thrown c)
| call_list (includeDeleted : bool) :
    let c := HivePublicKeyServiceClient.list axios this includeDeleted in
    crud_call this (HivePublicKeyServiceClient.sent c) (thrown c)
| call_create (partnerId keyId exponent modulus : string)
    (expiration : string_or_number) :
    let c := HivePublicKeyServiceClient.create ms now axios this partnerId
               keyId exponent modulus expiration in
    crud_call this (HivePublicKeyServiceClient.sent c) (thrown c)
| call_delete (keyId : string) :
    let c := HivePublicKeyServiceClient.delete axios this keyId in
    crud_call this (HivePublicKeyServiceClient.sent c) (thrown c).

End Calls.

End Spec.

(* ===================================================================== *)
(** ** The command line: the key commands *)
(* ===================================================================== *)

Module Commands.

Import HivePublicKeyServiceClient.

(** [GetKeyArguments] and [DeleteKeyArguments]: the same three fields. *)
Record KeyArguments : Type := mkKey {
  key_partnerId : string;
  key_keyId : string;
  key_endpoint : string
}.

(** [ListKeysArguments]. *)
Record ListKeysArguments : Type := mkList {
  list_partnerId : string;
  list_endpoint : string;
  list_includeDeleted : bool
}.

(** [PublishKeyArguments]. *)
Record PublishKeyArguments : Type := mkPublish {
  pub_file : string;
  pub_partnerId : string;
  pub_keyId : string;
  pub_expiration : string;
  pub_endpoint : string
}.

(** What [HiveKeyPair.exportPublicKey] returns. *)
Record PublicKey : Type := mkPublicKey {
  modulus : string;
  exponent : string
}.

Section KeyCommands.

Variable ms : string -> result Validation.ms_value.
Variable now : Z.
Variable axios : Axios -> request -> result axios_response.
(** The environment variable read at start-up. *)
Variable HIVE_PARTNER_TOKEN : option string.
(** [HiveKeyPair], whose methods rest on the [crypto] module: the key pair
    read from a PEM file, and its public half as the registry wants it. *)
Variable HiveKeyPair : Type.
Variable readFromFile : string -> result HiveKeyPair.
Variable exportPublicKey : HiveKeyPair -> PublicKey.
(** [util.inspect]. *)
Variable inspect : http_data -> string.

(** The [check] callback of get-key and of delete-key. *)
Definition key_check (argv : KeyArguments) : result KeyArguments :=
  _ <- Validation.checkEndpoint (key_endpoint argv) ;;
  _ <- Validation.checkPartnerToken HIVE_PARTNER_TOKEN ;;
  Ok argv.

(** The [check] callback of list-keys. *)
Definition list_keys_check (argv : ListKeysArguments)
    : result ListKeysArguments :=
  _ <- Validation.checkEndpoint (list_endpoint argv) ;;
  _ <- Validation.checkPartnerToken HIVE_PARTNER_TOKEN ;;
  Ok argv.

(** The [check] callback of publish-key. *)
Definition publish_key_check (argv : PublishKeyArguments)
    : result PublishKeyArguments :=
  _ <- Validation.checkEndpoint (pub_endpoint argv) ;;
  _ <- Validation.checkPartnerToken HIVE_PARTNER_TOKEN ;;
  _ <- Validation.checkExpiration ms now (pub_expiration argv) ;;
  Ok argv.

(** The handlers run after their [check]; [token] is the value of
    [HIVE_PARTNER_TOKEN!], a string once the check has passed.  Their value
    is the line they print. *)

(** The handler of list-keys. *)
Definition list_keys_handler (token : string) (argv : ListKeysArguments)
    : io string :=
  endpoint <~ io_lift (Validation.checkEndpoint (list_endpoint argv)) ;;
  let client := new (list_partnerId argv) token endpoint in
  keys <~ list axios client (list_includeDeleted argv) ;;
  io_ret (inspect keys).

(** The handler of get-key. *)
Definition get_key_handler (token : string) (argv : KeyArguments)
    : io string :=
  endpoint <~ io_lift (Validation.checkEndpoint (key_endpoint argv)) ;;
  let client := new (key_partnerId argv) token endpoint in
  key <~ get axios client (key_keyId argv) ;;
  io_ret (inspect key).

(** The handler of delete-key. *)
Definition delete_key_handler (token : string) (argv : KeyArguments)
    : io string :=
  endpoint <~ io_lift (Validation.checkEndpoint (key_endpoint argv)) ;;
  let client := new (key_partnerId argv) token endpoint in
  _ <~ delete axios client (key_keyId argv) ;;
  io_ret ("Deleted key: " ++ key_partnerId argv ++ "/" ++ key_keyId argv).

(** The handler of publish-key. *)
Definition publish_key_handler (token : string) (argv : PublishKeyArguments)
    : io string :=
  endpoint <~ io_lift (Validation.checkEndpoint (pub_endpoint argv)) ;;
  let client := new (pub_partnerId argv) token endpoint in
  keyPair <~ io_lift (readFromFile (pub_file argv)) ;;
  let publicKey := exportPublicKey keyPair in
  _ <~ create ms now axios client (pub_partnerId argv) (pub_keyId argv)
         (exponent publicKey) (modulus publicKey)
         (Str (pub_expiration argv)) ;;
  io_ret ("Created key: " ++ pub_partnerId argv ++ "/" ++ pub_keyId argv).

End KeyCommands.

End Commands.

(* ===================================================================== *)
(** ** The stand-alone command-line script *)
(* ===================================================================== *)

(** The script carries its own copies of [isNumeric], [checkExpiration],
    [checkExpiresIn] and [checkEndpoint], the same text as in
    [utils/validation]; the definitions of [Validation] stand for them. *)
Module Script.

(** [CreateJwtArguments] of the script. *)
Record CreateJwtArguments : Type := mkCreateJwt {
  jwt_file : string;
  jwt_partnerId : string;
  jwt_customerId : string;
  jwt_keyId : string;
  jwt_expiresIn : string;
  jwt_videoId : string;
  jwt_manifest : list string
}.

Section Commands.

Variable ms : string -> result Validation.ms_value.
Variable now : Z.
Variable encode : object -> string.
Variable jwa : string -> string -> string -> result string.
Variable readFile : string -> result string.

(** The [check] callback of create-jwt. *)
Definition create_jwt_check (argv : CreateJwtArguments)
    : result CreateJwtArguments :=
  _ <- Validation.checkExpiresIn ms (jwt_expiresIn argv) ;;
  Ok argv.

(** The handler of create-jwt: [expiresIn] is resolved to a number of
    seconds before the call to [sign]. *)
Definition create_jwt_handler (argv : CreateJwtArguments) : result string :=
  exp <- Validation.checkExpiresIn ms (jwt_expiresIn argv) ;;
  jwtCreator <- HiveJwtCreator.create readFile (jwt_partnerId argv)
                  (jwt_file argv) ;;
  jwt <- HiveJwtCreator.sign ms now encode jwa jwtCreator (jwt_keyId argv)
           (jwt_customerId argv) (jwt_videoId argv) (jwt_manifest argv)
           (Num exp) ;;
  Ok jwt.

End Commands.

End Script.

(* ===================================================================== *)
(** ** More of the concrete environment and of the notions *)
(* ===================================================================== *)

Module SamplePlain.

(** The product of a number and a positive whole factor, as [*] computes
    it in the duration parser. *)
Definition times (a : number) (k : positive) : number :=
  match a with
  | Fin q => round64 (q * inject_Z (Zpos k))
  | other => other
  end.

(** What [ms] answers for a decimal fraction [n / 10^k] of a second: the
    Number that [parseFloat] reads, times 1000. *)
Definition seconds (n : Z) (k : positive) : number :=
  times (round64 (Qmake n (Pos.pow 10 k))) 1000.

(** A duration parser that, like [ms], reads a string of digits as that
    many milliseconds; it also knows a million years (of 365.25 days) and
    two fractions of a second, and is [Sample.ms] on the other strings. *)
Definition ms (s : string) : result Validation.ms_value :=
  if Validation.isNumeric s
  then Ok (Validation.MsNumber
             (number_of_Z (decimal_value (list_ascii_of_string s))))
  else if String.eqb s "1000000y"
  then Ok (Validation.MsNumber (of_Z 31557600000000000))
  else if String.eqb s "0.49999999999s"
  then Ok (Validation.MsNumber (seconds 49999999999 11))
  else if String.eqb s "0.99999999999s"
  then Ok (Validation.MsNumber (seconds 99999999999 11))
  else Sample.ms s.

(** Key pairs stand for their PEM text; every key exports the same public
    half. *)
Definition exportPublicKey (_ : string) : Commands.PublicKey :=
  Commands.mkPublicKey "modulus" "AQAB".

Definition inspect (d : http_data) : string := render_errors d.

(** A registry that answers 404 to DELETE and accepts the rest. *)
Definition axios_no_key (_ : HivePublicKeyServiceClient.Axios)
    (r : HivePublicKeyServiceClient.request) : result axios_response :=
  match r with
  | HivePublicKeyServiceClient.DELETE _ =>
      Throw (AxiosError "ERR_BAD_REQUEST"
               (Some (mkResponse (DataOther "Not Found") 404)))
  | _ => Ok (mkResponse (DataOther EmptyString) 200)
  end.

End SamplePlain.

Module Notions.

(** Whether a call returned. *)
Definition accepts {A} (c : result A) : bool :=
  match c with Ok _ => true | Throw _ => false end.

(** The two base URLs of the registry. *)
Definition prod_url : string := "https://api.hivestreaming.com/v1".
Definition test_url : string := "https://api-test.hivestreaming.com/v1".

(** The body of a token of [HiveJwtCreator]: the five identity claims, the
    claim [last] that tells the two kinds of token apart, then [iat] and
    [exp]. *)
Definition token_body (partnerId videoId customerId : string)
    (last : string * json) (iat : Z) (exp : number) : object :=
  [("iss", JString partnerId);
   ("sub", JString videoId);
   ("ver", JString "1.0");
   ("aud", JString "https://hivestreaming.com");
   ("cid", JString customerId);
   last;
   ("iat", JNumber (of_Z iat));
   ("exp", JNumber exp)].

(** The compact serialization of a token signed for the key [keyId]. *)
Definition compact (encode : object -> string) (keyId : string)
    (body : object) (signature : string) : string :=
  (encode (Spec.jwt_header keyId) ++ "." ++ encode body) ++ "." ++ signature.

(** The redirect URL of the reporting portal for an endpoint. *)
Definition reporting_url (endpoint token : string) : string :=
  "https://api"
  ++ (if String.eqb endpoint "prod" then EmptyString else "-" ++ endpoint)
  ++ ".hivestreaming.com/v1/url-redirect/adminportal-jwt/" ++ token.

(** The URL of a request. *)
Definition url_of (r : HivePublicKeyServiceClient.request) : string :=
  match r with
  | HivePublicKeyServiceClient.GET u => u
  | HivePublicKeyServiceClient.POST u _ => u
  | HivePublicKeyServiceClient.DELETE u => u
  end.

End Notions.

(* ===================================================================== *)
(** ** Properties of the expiration resolvers *)
(* ===================================================================== *)

Import Validation.

(** Case analysis on every test the goal branches on. *)
Ltac case_ifs :=
  repeat match goal with
         | |- context [if ?b then _ else _] => destruct b
         end.

Lemma digit_not_space c : is_digit c = true -> is_space c = false.
Proof.
  destruct c as [[] [] [] [] [] [] [] []]; vm_compute; congruence.
Qed.

Lemma digits_prefix_all s :
  forallb is_digit (list_ascii_of_string s) = true ->
  digits_prefix s = list_ascii_of_string s.
Proof.
  induction s as [|c r IH]; simpl; [reflexivity|].
  intros H. apply andb_true_iff in H as [Hc Hr].
  rewrite Hc, (IH Hr). reflexivity.
Qed.

Lemma nearest_double_not_NaN v : isNaN (nearest_double v) = false.
Proof.
  unfold nearest_double.
  destruct (v <? 2 ^ 53)%Z; [reflexivity|].
  cbv zeta. destruct (2 ^ 1024 <=? _)%Z; reflexivity.
Qed.

Lemma number_of_Z_not_NaN v : isNaN (number_of_Z v) = false.
Proof.
  unfold number_of_Z. destruct (v <? 0)%Z.
  - pose proof (nearest_double_not_NaN (- v)) as H.
    destruct (nearest_double (- v)); simpl in *; congruence.
  - apply nearest_double_not_NaN.
Qed.

(** On a digit string [parseInt] reads every character: its value is the
    Number nearest to the decimal value of the whole string. *)
Lemma parseInt10_numeric s :
  isNumeric s = true ->
  parseInt10 s = number_of_Z (decimal_value (list_ascii_of_string s)).
Proof.
  destruct s as [|c r]; [discriminate|].
  unfold isNumeric. intros H.
  pose proof (digits_prefix_all _ H) as Hp.
  simpl in H. apply andb_true_iff in H as [Hc Hr].
  unfold parseInt10.
  change (trim_start (String c r))
    with (if is_space c then trim_start r else String c r).
  rewrite (digit_not_space c Hc).
  assert (Hsign : match String c r with
                  | String "-" r0 => (true, r0)
                  | String "+" r0 => (false, r0)
                  | _ => (false, String c r)
                  end = (false, String c r)).
  { destruct c as [[] [] [] [] [] [] [] []]; try reflexivity;
      vm_compute in Hc; discriminate. }
  rewrite Hsign, Hp. simpl. reflexivity.
Qed.

Lemma parseInt10_numeric_not_NaN s :
  isNumeric s = true -> isNaN (parseInt10 s) = false.
Proof.
  intros H. rewrite (parseInt10_numeric s H). apply number_of_Z_not_NaN.
Qed.

(* ===================================================================== *)
(** ** Binary64 arithmetic *)
(* ===================================================================== *)

Section Binary64.

Local Open Scope Q_scope.

Lemma two_neq_0 : ~ 2 == 0.
Proof. discriminate. Qed.

Lemma pow2_pos e : 0 < pow2 e.
Proof. apply Qpower_0_lt. reflexivity. Qed.

Lemma pow2_add a b : pow2 (a + b) == pow2 a * pow2 b.
Proof. apply Qpower_plus, two_neq_0. Qed.

Lemma pow2_le a b : (a <= b)%Z -> pow2 a <= pow2 b.
Proof. intros H. apply Qpower_le_compat_l; [exact H|discriminate]. Qed.

Lemma pow2_lt_inv a b : pow2 a < pow2 b -> (a < b)%Z.
Proof. intros H. apply (Qpower_lt_compat_l_inv 2); [exact H|reflexivity]. Qed.

Lemma pow2_Z n : (0 <= n)%Z -> pow2 n == inject_Z (2 ^ n).
Proof. intros H. symmetry. apply (Zpower_Qpower 2 n H). Qed.

Lemma pow2_half e : pow2 (e - 1) == (1 # 2) * pow2 e.
Proof.
  replace e with ((e - 1) + 1)%Z at 2 by ring.
  rewrite pow2_add. change (pow2 1) with 2. field.
Qed.

(** [ilog2 q] is the binary order of magnitude of a positive [q]. *)
Lemma ilog2_spec q :
  0 < q -> pow2 (ilog2 q) <= q /\ q < pow2 (ilog2 q + 1).
Proof.
  intros Hq. destruct q as [n d].
  assert (Hn : (0 < n)%Z).
  { unfold Qlt in Hq. simpl in Hq. lia. }
  unfold ilog2. cbn [Qnum Qden].
  set (a := Z.log2 n). set (b := Z.log2 (Zpos d)).
  destruct (Z.log2_spec n Hn) as [Ha1 Ha2]. fold a in Ha1, Ha2.
  destruct (Z.log2_spec (Zpos d) eq_refl) as [Hb1 Hb2]. fold b in Hb1, Hb2.
  assert (Ha0 : (0 <= a)%Z) by apply Z.log2_nonneg.
  assert (Hb0 : (0 <= b)%Z) by apply Z.log2_nonneg.
  rewrite Zle_Qle, <- pow2_Z in Ha1 by exact Ha0.
  rewrite Zlt_Qlt, <- pow2_Z in Ha2 by lia.
  rewrite Zle_Qle, <- pow2_Z in Hb1 by exact Hb0.
  rewrite Zlt_Qlt, <- pow2_Z in Hb2 by lia.
  assert (Hnd : (n # d) * inject_Z (Zpos d) == inject_Z n).
  { rewrite (Qmake_Qdiv n d). field. discriminate. }
  assert (Hd : 0 < inject_Z (Zpos d)) by reflexivity.
  set (k := (a - b)%Z).
  assert (Hlow : pow2 (k - 1) < n # d).
  { assert (E : pow2 (k - 1) * pow2 (Z.succ b) == pow2 a).
    { rewrite <- pow2_add. unfold k.
      now replace (a - b - 1 + Z.succ b)%Z with a by lia. }
    pose proof (pow2_pos (k - 1)) as Hp.
    destruct (Qlt_le_dec (pow2 (k - 1)) (n # d)) as [H|H]; [exact H|].
    exfalso. nra. }
  assert (Hup : n # d < pow2 (k + 1)).
  { assert (E : pow2 (k + 1) * pow2 b == pow2 (Z.succ a)).
    { rewrite <- pow2_add. unfold k.
      now replace (a - b + 1 + b)%Z with (Z.succ a) by lia. }
    pose proof (pow2_pos (k + 1)) as Hp.
    destruct (Qlt_le_dec (n # d) (pow2 (k + 1))) as [H|H]; [exact H|].
    exfalso. nra. }
  destruct (Qle_bool (pow2 k) (n # d)) eqn:Ht.
  - apply Qle_bool_iff in Ht. split; assumption.
  - split.
    + apply Qlt_le_weak, Hlow.
    + replace (k - 1 + 1)%Z with k by ring.
      apply Qnot_le_lt. intros H. apply Qle_bool_iff in H. congruence.
Qed.

Lemma ilog2_lt q K : 0 < q -> q < pow2 K -> (ilog2 q < K)%Z.
Proof.
  intros Hq HK. destruct (ilog2_spec q Hq) as [Hl _].
  apply pow2_lt_inv. eapply Qle_lt_trans; eassumption.
Qed.

(** Rounding to the nearest integer, ties to even. *)
Lemma round_half_even_bounds x :
  x - (1 # 2) <= inject_Z (round_half_even x)
  /\ inject_Z (round_half_even x) <= x + (1 # 2).
Proof.
  unfold round_half_even.
  pose proof (Qfloor_le x) as Hl. pose proof (Qlt_floor x) as Hu.
  rewrite inject_Z_plus in Hu. change (inject_Z 1) with 1 in Hu.
  destruct (Qcompare (x - inject_Z (Qfloor x)) (1 # 2)) eqn:E.
  - apply Qeq_alt in E.
    destruct (Z.even (Qfloor x)).
    + split; lra.
    + rewrite inject_Z_plus. change (inject_Z 1) with 1. split; lra.
  - apply Qlt_alt in E. split; lra.
  - apply Qgt_alt in E. rewrite inject_Z_plus. change (inject_Z 1) with 1.
    split; lra.
Qed.

Lemma round_half_even_Z x z : x == inject_Z z -> round_half_even x = z.
Proof.
  intros H. unfold round_half_even.
  rewrite (Qfloor_comp _ _ H), Qfloor_Z.
  assert (E : Qcompare (x - inject_Z z) (1 # 2) = Lt).
  { apply (proj1 (Qlt_alt _ _)). lra. }
  now rewrite E.
Qed.

Lemma ulp_exponent_le q K :
  0 < q -> q < pow2 K -> (-1021 <= K)%Z -> (ulp_exponent q <= K - 53)%Z.
Proof.
  intros Hq HK Hmin. pose proof (ilog2_lt q K Hq HK). unfold ulp_exponent. lia.
Qed.

Lemma ulp_exponent_ge q : (-1074 <= ulp_exponent q)%Z.
Proof. unfold ulp_exponent. lia. Qed.

Lemma scaled_value q : q / pow2 (ulp_exponent q) * pow2 (ulp_exponent q) == q.
Proof.
  field. pose proof (pow2_pos (ulp_exponent q)). lra.
Qed.

(** The rounded value is within half a unit in the last place. *)
Lemma significand_error q :
  q - (1 # 2) * pow2 (ulp_exponent q)
  <= inject_Z (significand q) * pow2 (ulp_exponent q)
  /\ inject_Z (significand q) * pow2 (ulp_exponent q)
     <= q + (1 # 2) * pow2 (ulp_exponent q).
Proof.
  pose proof (scaled_value q) as Hs.
  pose proof (pow2_pos (ulp_exponent q)) as Hp.
  destruct (round_half_even_bounds (q / pow2 (ulp_exponent q))) as [Hl Hu].
  fold (significand q) in Hl, Hu.
  split; nra.
Qed.

(** The significand has at most 53 bits (2^53 itself is reached when the
    rounding carries). *)
Lemma significand_le q : 0 < q -> (significand q <= 2 ^ 53)%Z.
Proof.
  intros Hq. destruct (ilog2_spec q Hq) as [_ Hu].
  pose proof (scaled_value q) as Hs.
  pose proof (pow2_pos (ulp_exponent q)) as Hp.
  assert (Hx : q / pow2 (ulp_exponent q) < pow2 53).
  { assert (E : pow2 (ilog2 q + 1) == pow2 53 * pow2 (ilog2 q - 52)).
    { rewrite <- pow2_add.
      now replace (53 + (ilog2 q - 52))%Z with (ilog2 q + 1)%Z by ring. }
    assert (Hle : pow2 (ilog2 q - 52) <= pow2 (ulp_exponent q)).
    { apply pow2_le. unfold ulp_exponent. lia. }
    pose proof (pow2_pos 53).
    destruct (Qlt_le_dec (q / pow2 (ulp_exponent q)) (pow2 53)) as [H1|H1];
      [exact H1|].
    exfalso. nra. }
  destruct (round_half_even_bounds (q / pow2 (ulp_exponent q))) as [_ Hm].
  fold (significand q) in Hm.
  assert (Hlt : inject_Z (significand q) < inject_Z (2 ^ 53 + 1)).
  { rewrite inject_Z_plus, <- pow2_Z by lia. change (inject_Z 1) with 1. lra. }
  rewrite <- Zlt_Qlt in Hlt. lia.
Qed.

Lemma significand_nonneg q : 0 < q -> (0 <= significand q)%Z.
Proof.
  intros Hq.
  pose proof (pow2_pos (ulp_exponent q)) as Hp.
  pose proof (scaled_value q) as Hs.
  destruct (round_half_even_bounds (q / pow2 (ulp_exponent q))) as [Hl _].
  fold (significand q) in Hl.
  assert (H0 : 0 < q / pow2 (ulp_exponent q)).
  { destruct (Qlt_le_dec 0 (q / pow2 (ulp_exponent q))) as [H|H]; [exact H|].
    exfalso. nra. }
  assert (Hlt : inject_Z (-1) < inject_Z (significand q)).
  { change (inject_Z (-1)) with (-(1)). lra. }
  rewrite <- Zlt_Qlt in Hlt. lia.
Qed.

Lemma round_pos_cases q :
  let v := inject_Z (significand q) * pow2 (ulp_exponent q) in
  (round_pos q = PosInf /\ pow2 1024 <= v)
  \/ (round_pos q = Fin (Qred v) /\ v < pow2 1024).
Proof.
  intros v. unfold round_pos. fold v.
  destruct (Qle_bool (pow2 1024) v) eqn:E.
  - left. split; [reflexivity|]. now apply Qle_bool_iff.
  - right. split; [reflexivity|].
    apply Qnot_le_lt. intros H. apply Qle_bool_iff in H. congruence.
Qed.

Lemma round64_pos q : 0 < q -> round64 q = round_pos (Qred q).
Proof.
  intros H. unfold round64.
  assert (E : Qcompare (Qred q) 0 = Gt).
  { apply (proj1 (Qgt_alt _ _)). now rewrite Qred_correct. }
  now rewrite E.
Qed.

Lemma round64_neg q : q < 0 -> round64 q = neg (round_pos (- Qred q)).
Proof.
  intros H. unfold round64.
  assert (E : Qcompare (Qred q) 0 = Lt).
  { apply (proj1 (Qlt_alt _ _)). now rewrite Qred_correct. }
  now rewrite E.
Qed.

Lemma round64_zero q : q == 0 -> round64 q = Fin 0.
Proof.
  intros H. unfold round64.
  assert (E : Qcompare (Qred q) 0 = Eq).
  { apply (proj1 (Qeq_alt _ _)). now rewrite Qred_correct. }
  now rewrite E.
Qed.

Lemma round_pos_not_NaN q : isNaN (round_pos q) = false.
Proof.
  unfold round_pos. now destruct (Qle_bool _ _).
Qed.

Lemma round64_not_NaN q : isNaN (round64 q) = false.
Proof.
  unfold round64. destruct (Qcompare (Qred q) 0).
  - reflexivity.
  - pose proof (round_pos_not_NaN (- Qred q)).
    now destruct (round_pos (- Qred q)).
  - apply round_pos_not_NaN.
Qed.

Lemma Qred_inject_Z q z : q == inject_Z z -> Qred q = inject_Z z.
Proof.
  intros H. rewrite (Qred_complete _ _ H).
  apply Qcanon.Qred_identity. simpl. apply Z.gcd_1_r.
Qed.

(** The integers below 2^53 are Numbers: rounding leaves them alone. *)
Lemma round_pos_Z q z :
  q == inject_Z z -> (0 < z < 2 ^ 53)%Z -> round_pos q = of_Z z.
Proof.
  intros Hq Hz.
  assert (Hpos : 0 < q).
  { rewrite Hq. change 0 with (inject_Z 0). rewrite <- Zlt_Qlt. lia. }
  assert (Hlt : q < pow2 53).
  { rewrite Hq, pow2_Z by lia. rewrite <- Zlt_Qlt. lia. }
  pose proof (ulp_exponent_le q 53 Hpos Hlt ltac:(lia)) as He.
  pose proof (pow2_pos (ulp_exponent q)) as Hp.
  assert (Hs : significand q = (z * 2 ^ (- ulp_exponent q))%Z).
  { unfold significand. apply round_half_even_Z.
    rewrite inject_Z_mult, <- pow2_Z by lia. rewrite <- Hq.
    unfold pow2. rewrite Qpower_opp. reflexivity. }
  assert (Hv : inject_Z (significand q) * pow2 (ulp_exponent q) == inject_Z z).
  { rewrite Hs, inject_Z_mult, <- pow2_Z by lia.
    unfold pow2 in *. rewrite Qpower_opp. field. lra. }
  destruct (round_pos_cases q) as [[_ Hov]|[Hr _]].
  - exfalso. rewrite Hv in Hov.
    assert (pow2 53 <= pow2 1024) by (apply pow2_le; lia). lra.
  - rewrite Hr. unfold of_Z. f_equal. apply Qred_inject_Z, Hv.
Qed.

Lemma round64_Z q z :
  q == inject_Z z -> (0 <= z < 2 ^ 53)%Z -> round64 q = of_Z z.
Proof.
  intros Hq Hz. destruct (Z.eq_dec z 0) as [->|Hnz].
  - now apply round64_zero.
  - assert (Hpos : 0 < q).
    { rewrite Hq. change 0 with (inject_Z 0). rewrite <- Zlt_Qlt. lia. }
    rewrite (round64_pos q Hpos). apply round_pos_Z; [|lia].
    now rewrite Qred_correct.
Qed.

(** Below 2^K the rounding error is at most 2^(K-54). *)
Lemma round_pos_error q K :
  0 < q -> q < pow2 K -> (-1021 <= K <= 1023)%Z ->
  exists y, round_pos q = Fin y
            /\ q - pow2 (K - 54) <= y /\ y <= q + pow2 (K - 54).
Proof.
  intros Hpos Hlt HK.
  pose proof (ulp_exponent_le q K Hpos Hlt ltac:(lia)) as He.
  destruct (significand_error q) as [Hl Hu].
  assert (Hulp : (1 # 2) * pow2 (ulp_exponent q) <= pow2 (K - 54)).
  { rewrite <- pow2_half. apply pow2_le. lia. }
  destruct (round_pos_cases q) as [[_ Hov]|[Hr _]].
  - exfalso.
    assert (H1 : pow2 (K - 54) <= pow2 K) by (apply pow2_le; lia).
    assert (H2 : pow2 (K + 1) <= pow2 1024) by (apply pow2_le; lia).
    assert (H3 : pow2 (K + 1) == 2 * pow2 K).
    { rewrite pow2_add. change (pow2 1) with 2. ring. }
    lra.
  - eexists. split; [exact Hr|]. rewrite Qred_correct. split; lra.
Qed.

Lemma round64_error q K :
  0 < q -> q < pow2 K -> (-1021 <= K <= 1023)%Z ->
  exists y, round64 q = Fin y
            /\ q - pow2 (K - 54) <= y /\ y <= q + pow2 (K - 54).
Proof.
  intros Hpos Hlt HK. rewrite (round64_pos q Hpos).
  destruct (round_pos_error (Qred q) K) as (y & Hy & H1 & H2);
    try rewrite Qred_correct; try assumption.
  exists y. split; [exact Hy|]. rewrite Qred_correct in H1, H2.
  split; assumption.
Qed.

(** A finite result lies within the range of binary64. *)
Lemma round_pos_range q y :
  0 < q -> round_pos q = Fin y -> 0 <= y /\ y <= max_double.
Proof.
  intros Hpos Hy.
  pose proof (significand_le q Hpos) as Hm.
  pose proof (significand_nonneg q Hpos) as Hm0.
  pose proof (pow2_pos (ulp_exponent q)) as Hp.
  destruct (round_pos_cases q) as [[Hr _]|[Hr Hv]]; [congruence|].
  assert (Ey : y == inject_Z (significand q) * pow2 (ulp_exponent q)).
  { assert (E : y = Qred (inject_Z (significand q) * pow2 (ulp_exponent q)))
      by congruence.
    rewrite E. apply Qred_correct. }
  rewrite Ey. clear Hy Hr.
  assert (Hm0' : 0 <= inject_Z (significand q)).
  { change 0 with (inject_Z 0). now rewrite <- Zle_Qle. }
  split; [nra|].
  destruct (Z_le_gt_dec (ulp_exponent q) 970) as [He|He].
  - assert (Hm' : inject_Z (significand q) <= pow2 53).
    { rewrite pow2_Z by lia. now rewrite <- Zle_Qle. }
    assert (He' : pow2 (ulp_exponent q) <= pow2 970) by (apply pow2_le; lia).
    assert (E : pow2 53 * pow2 970 == pow2 1023) by (now rewrite <- pow2_add).
    assert (Hmax : pow2 1023 <= max_double).
    { rewrite pow2_Z by lia. unfold max_double. rewrite <- Zle_Qle.
      apply Z.leb_le. vm_compute. reflexivity. }
    pose proof (pow2_pos 53). nra.
  - assert (E : pow2 (ulp_exponent q)
                == inject_Z (2 ^ (ulp_exponent q - 971) * 2 ^ 971)).
    { rewrite <- Z.pow_add_r by lia.
      replace (ulp_exponent q - 971 + 971)%Z with (ulp_exponent q) by ring.
      apply pow2_Z. lia. }
    rewrite E, <- inject_Z_mult in Hv |- *.
    rewrite pow2_Z in Hv by lia. rewrite <- Zlt_Qlt in Hv.
    unfold max_double. rewrite <- Zle_Qle.
    replace (2 ^ 1024)%Z with (2 ^ 53 * 2 ^ 971)%Z in *
      by (now rewrite <- Z.pow_add_r).
    assert (HP : (0 < 2 ^ 971)%Z) by (apply Z.pow_pos_nonneg; lia).
    remember (2 ^ 971)%Z as P. remember (2 ^ (ulp_exponent q - 971))%Z as T.
    rewrite Z.mul_assoc in Hv |- *.
    apply Z.mul_lt_mono_pos_r in Hv; [|exact HP].
    nia.
Qed.

(** No overflow below 2^1024 - 2^970. *)
Lemma round_pos_no_overflow q :
  0 < q -> q < overflow_threshold -> exists y, round_pos q = Fin y.
Proof.
  intros Hpos Hlt.
  assert (H1024 : q < pow2 1024).
  { eapply Qlt_le_trans; [exact Hlt|]. unfold overflow_threshold.
    rewrite pow2_Z by lia. rewrite <- Zle_Qle. apply Z.leb_le.
    vm_compute. reflexivity. }
  pose proof (ulp_exponent_le q 1024 Hpos H1024 ltac:(lia)) as He.
  destruct (significand_error q) as [_ Hu].
  assert (Hulp : (1 # 2) * pow2 (ulp_exponent q) <= pow2 970).
  { rewrite <- pow2_half. apply pow2_le. lia. }
  destruct (round_pos_cases q) as [[_ Hov]|[Hr _]]; [|eauto].
  exfalso.
  assert (E : overflow_threshold + pow2 970 == pow2 1024).
  { unfold overflow_threshold. rewrite !pow2_Z by lia. rewrite <- inject_Z_plus.
    now replace (2 ^ 1024 - 2 ^ 970 + 2 ^ 970)%Z with (2 ^ 1024)%Z by ring. }
  lra.
Qed.

(** A whole number rounds to a whole number. *)
Lemma round_pos_integer q z y :
  q == inject_Z z -> round_pos q = Fin y -> exists w, y = inject_Z w.
Proof.
  intros Hq Hy.
  destruct (round_pos_cases q) as [[Hr _]|[Hr _]]; [congruence|].
  assert (Ey : y = Qred (inject_Z (significand q) * pow2 (ulp_exponent q)))
    by congruence.
  rewrite Ey. clear Ey Hy Hr.
  destruct (Z_le_gt_dec 0 (ulp_exponent q)) as [He|He].
  - exists (significand q * 2 ^ ulp_exponent q)%Z. apply Qred_inject_Z.
    now rewrite inject_Z_mult, <- pow2_Z.
  - exists z. apply Qred_inject_Z.
    pose proof (pow2_pos (ulp_exponent q)) as Hp.
    assert (Hs : significand q = (z * 2 ^ (- ulp_exponent q))%Z).
    { unfold significand. apply round_half_even_Z.
      rewrite inject_Z_mult, <- pow2_Z by lia. rewrite <- Hq.
      unfold pow2. rewrite Qpower_opp. reflexivity. }
    rewrite Hs, inject_Z_mult, <- pow2_Z by lia.
    unfold pow2 in *. rewrite Qpower_opp. field. lra.
Qed.

Lemma round64_range q y : round64 q = Fin y -> Qabs y <= max_double.
Proof.
  intros Hy. apply Qabs_Qle_condition.
  assert (H0 : 0 <= max_double) by (apply Qle_bool_iff; reflexivity).
  destruct (Q_dec q 0) as [[Hneg|Hpos]|Hz].
  - rewrite (round64_neg q Hneg) in Hy.
    destruct (round_pos (- Qred q)) as [y'| | |] eqn:E; try discriminate.
    assert (Ey : y = - y') by (cbn [neg] in Hy; congruence).
    rewrite Ey.
    destruct (round_pos_range (- Qred q) y') as [H1 H2]; [|exact E|].
    + rewrite Qred_correct. lra.
    + split; lra.
  - rewrite (round64_pos q Hpos) in Hy.
    destruct (round_pos_range (Qred q) y) as [H1 H2]; [|exact Hy|].
    + now rewrite Qred_correct.
    + split; lra.
  - rewrite (round64_zero q Hz) in Hy.
    assert (Ey : y = 0) by congruence. rewrite Ey. split; lra.
Qed.

Lemma round64_no_overflow q :
  Qabs q < overflow_threshold -> exists y, round64 q = Fin y.
Proof.
  intros H.
  destruct (Q_dec q 0) as [[Hneg|Hpos]|Hz].
  - rewrite (round64_neg q Hneg).
    destruct (round_pos_no_overflow (- Qred q)) as [y Hy].
    + rewrite Qred_correct. lra.
    + rewrite Qred_correct. rewrite Qabs_neg in H by lra. exact H.
    + rewrite Hy. simpl. eauto.
  - rewrite (round64_pos q Hpos).
    apply round_pos_no_overflow; rewrite Qred_correct; [exact Hpos|].
    rewrite Qabs_pos in H by lra. exact H.
  - rewrite (round64_zero q Hz). eauto.
Qed.

Lemma round64_integer q z y :
  q == inject_Z z -> round64 q = Fin y -> exists w, y = inject_Z w.
Proof.
  intros Hq Hy.
  destruct (Q_dec q 0) as [[Hneg|Hpos]|Hz].
  - rewrite (round64_neg q Hneg) in Hy.
    destruct (round_pos (- Qred q)) as [y'| | |] eqn:E; try discriminate.
    assert (Ey : y = - y') by (cbn [neg] in Hy; congruence).
    rewrite Ey.
    destruct (round_pos_integer (- Qred q) (- z) y') as [w ->]; [|exact E|].
    + rewrite Qred_correct, Hq, inject_Z_opp. reflexivity.
    + exists (- w)%Z. reflexivity.
  - rewrite (round64_pos q Hpos) in Hy.
    apply (round_pos_integer (Qred q) z y); [|exact Hy].
    now rewrite Qred_correct.
  - rewrite (round64_zero q Hz) in Hy. exists 0%Z.
    assert (Ey : y = 0) by congruence. rewrite Ey. reflexivity.
Qed.


(** *** Sums and quotients that binary64 computes exactly *)

Lemma add_of_Z a b :
  (0 <= a + b < 2 ^ 53)%Z -> add (of_Z a) (of_Z b) = of_Z (a + b).
Proof.
  intros H. unfold add, of_Z. apply round64_Z; [|exact H].
  now rewrite inject_Z_plus.
Qed.

Lemma Qfloor_unique (y : Q) (k : Z) :
  inject_Z k <= y -> y < inject_Z (k + 1) -> Qfloor y = k.
Proof.
  intros Hl Hu.
  pose proof (Qfloor_resp_le _ _ Hl) as H1. rewrite Qfloor_Z in H1.
  pose proof (Qfloor_le y) as H2.
  assert (H3 : inject_Z (Qfloor y) < inject_Z (k + 1)) by lra.
  rewrite <- Zlt_Qlt in H3. lia.
Qed.

Lemma div_1000 (q : Q) : div (Fin q) (of_Z 1000) = round64 (q / inject_Z 1000).
Proof. reflexivity. Qed.

(** The quotient of a whole number by 1000, split at the integer part. *)
Lemma thousandths (x : Z) :
  inject_Z x / inject_Z 1000 * 1000
  == inject_Z (x / 1000) * 1000 + inject_Z (x mod 1000).
Proof.
  rewrite (Z.div_mod x 1000) at 1 by lia.
  rewrite inject_Z_plus, inject_Z_mult. field.
Qed.

(** Whole numbers below 2^53: the floor of the rounded quotient by 1000
    is the integer quotient. *)
Lemma floor_div_1000 (x : Z) :
  (0 <= x < 2 ^ 53)%Z ->
  Math_floor (div (of_Z x) (of_Z 1000)) = of_Z (x / 1000).
Proof.
  intros Hx. unfold of_Z at 1. rewrite div_1000.
  pose proof (thousandths x) as Hq.
  pose proof (Z.mod_pos_bound x 1000 ltac:(lia)) as Hj.
  assert (Hk : (0 <= x / 1000 < 2 ^ 53)%Z).
  { split; [apply Z.div_pos; lia|].
    apply Z.div_lt_upper_bound; lia. }
  destruct (Z.eq_dec (x mod 1000) 0) as [Hz|Hnz].
  - rewrite (round64_Z _ (x / 1000)); [| |exact Hk].
    2:{ rewrite Hz in Hq. change (inject_Z 0) with 0 in Hq.
        apply (Qmult_inj_r _ _ 1000); [discriminate|]. rewrite Hq. ring. }
    unfold Math_floor, of_Z. now rewrite Qfloor_Z.
  - assert (Hj1 : inject_Z 1 <= inject_Z (x mod 1000))
      by (rewrite <- Zle_Qle; lia).
    assert (Hj2 : inject_Z (x mod 1000) <= inject_Z 999)
      by (rewrite <- Zle_Qle; lia).
    assert (Hk0 : inject_Z 0 <= inject_Z (x / 1000))
      by (rewrite <- Zle_Qle; lia).
    assert (Hx2 : inject_Z x < inject_Z (2 ^ 53)) by (rewrite <- Zlt_Qlt; lia).
    change (inject_Z 1) with 1 in Hj1. change (inject_Z 999) with 999 in Hj2.
    change (inject_Z 0) with 0 in Hk0.
    change (inject_Z (2 ^ 53)) with 9007199254740992 in Hx2.
    remember (inject_Z x / inject_Z 1000) as q eqn:Eq.
    assert (Hq1 : q * 1000 == inject_Z x) by (rewrite Eq; field).
    remember (inject_Z x) as X. remember (inject_Z (x mod 1000)) as J.
    assert (Hfl : forall y, inject_Z (x / 1000) <= y ->
                            y < inject_Z (x / 1000) + 1 ->
                            Qfloor y = (x / 1000)%Z).
    { intros y H1 H2. apply Qfloor_unique; [exact H1|].
      rewrite inject_Z_plus. exact H2. }
    remember (inject_Z (x / 1000)) as K.
    clear Eq HeqX HeqJ HeqK.
    destruct (round64_error q 44) as (y & Hy & Hl & Hu); [lra| |lia|].
    { change (pow2 44) with 17592186044416. lra. }
    rewrite Hy. unfold Math_floor, of_Z.
    change (pow2 (44 - 54)) with (1 # 1024) in Hl, Hu.
    rewrite (Hfl y); [reflexivity|lra|lra].
Qed.

(** The same with the clock added to the quotient before the floor, two
    roundings in a row: exact below 2^43. *)
Lemma floor_add_div_1000 (i v : Z) :
  (0 <= i)%Z -> (0 <= v)%Z -> (i + v / 1000 < 2 ^ 43)%Z ->
  Math_floor (add (of_Z i) (div (of_Z v) (of_Z 1000))) = of_Z (i + v / 1000).
Proof.
  intros Hi Hv Hsum.
  change (Math_floor (add (Fin (inject_Z i))
                        (round64 (inject_Z v / inject_Z 1000)))
          = of_Z (i + v / 1000)).
  pose proof (thousandths v) as Hq.
  pose proof (Z.mod_pos_bound v 1000 ltac:(lia)) as Hj.
  assert (Hk : (0 <= v / 1000)%Z) by (apply Z.div_pos; lia).
  destruct (Z.eq_dec (v mod 1000) 0) as [Hz|Hnz].
  - rewrite (round64_Z _ (v / 1000)); [| |lia].
    2:{ rewrite Hz in Hq. change (inject_Z 0) with 0 in Hq.
        apply (Qmult_inj_r _ _ 1000); [discriminate|]. rewrite Hq. ring. }
    change (Fin (inject_Z i)) with (of_Z i). rewrite add_of_Z by lia.
    unfold Math_floor, of_Z. now rewrite Qfloor_Z.
  - assert (Hj1 : inject_Z 1 <= inject_Z (v mod 1000))
      by (rewrite <- Zle_Qle; lia).
    assert (Hj2 : inject_Z (v mod 1000) <= inject_Z 999)
      by (rewrite <- Zle_Qle; lia).
    assert (Hk0 : inject_Z 0 <= inject_Z (v / 1000))
      by (rewrite <- Zle_Qle; lia).
    assert (Hi0 : inject_Z 0 <= inject_Z i) by (rewrite <- Zle_Qle; lia).
    assert (Hs : inject_Z (i + v / 1000) + 1 <= inject_Z (2 ^ 43)).
    { change 1 with (inject_Z 1). rewrite <- inject_Z_plus, <- Zle_Qle. lia. }
    change (inject_Z 1) with 1 in Hj1. change (inject_Z 999) with 999 in Hj2.
    change (inject_Z 0) with 0 in Hk0, Hi0.
    change (inject_Z (2 ^ 43)) with 8796093022208 in Hs.
    rewrite inject_Z_plus in Hs.
    assert (Hfl : forall y, inject_Z i + inject_Z (v / 1000) <= y ->
                            y < inject_Z i + inject_Z (v / 1000) + 1 ->
                            Qfloor y = (i + v / 1000)%Z).
    { intros y H1 H2. apply Qfloor_unique; rewrite !inject_Z_plus; assumption. }
    remember (inject_Z v / inject_Z 1000) as q eqn:Eq.
    remember (inject_Z (v mod 1000)) as J. remember (inject_Z (v / 1000)) as K.
    remember (inject_Z i) as I.
    clear Eq HeqJ HeqK HeqI.
    destruct (round64_error q 43) as (y1 & Hy1 & Hl1 & Hu1); [lra| |lia|].
    { change (pow2 43) with 8796093022208. lra. }
    change (pow2 (43 - 54)) with (1 # 2048) in Hl1, Hu1.
    rewrite Hy1. unfold add.
    destruct (round64_error (I + y1) 43) as (y2 & Hy2 & Hl2 & Hu2);
      [lra| |lia|].
    { change (pow2 43) with 8796093022208. lra. }
    change (pow2 (43 - 54)) with (1 # 2048) in Hl2, Hu2.
    rewrite Hy2. unfold Math_floor, of_Z.
    rewrite (Hfl y2); [reflexivity|lra|lra].
Qed.

(** *** Finite and whole results *)

Lemma in_range_iff q : in_range q = true <-> Qabs q <= max_double.
Proof. apply Qle_bool_iff. Qed.

Lemma in_range_floor y :
  Qabs y <= max_double -> in_range (inject_Z (Qfloor y)) = true.
Proof.
  intros H. apply in_range_iff. apply Qabs_Qle_condition in H as [Hl Hu].
  apply Qabs_Qle_condition. unfold max_double in *.
  rewrite <- inject_Z_opp in *. rewrite <- !Zle_Qle. split.
  - apply Qfloor_resp_le in Hl. now rewrite Qfloor_Z in Hl.
  - apply Qfloor_resp_le in Hu. now rewrite Qfloor_Z in Hu.
Qed.

Lemma isInteger_Fin_Z w :
  in_range (inject_Z w) = true -> isInteger (Fin (inject_Z w)) = true.
Proof.
  intros H. unfold isInteger. rewrite H, Qfloor_Z.
  apply Qeq_bool_iff. reflexivity.
Qed.

Lemma floor_finite_is_integer n :
  isFinite n = true -> isInteger (Math_floor n) = true.
Proof.
  destruct n as [q| | |]; try discriminate. intros H.
  apply isInteger_Fin_Z, in_range_floor, in_range_iff, H.
Qed.

Lemma round64_finite q :
  Qabs q < overflow_threshold -> isFinite (round64 q) = true.
Proof.
  intros H. destruct (round64_no_overflow q H) as [y Hy].
  rewrite Hy. apply in_range_iff, (round64_range q), Hy.
Qed.

Lemma max_double_lt_threshold (b : Q) :
  b <= inject_Z (2 ^ 53) -> max_double + b < overflow_threshold.
Proof.
  intros H. unfold max_double, overflow_threshold.
  assert (E : inject_Z (2 ^ 1024 - 2 ^ 971) + inject_Z (2 ^ 53)
              < inject_Z (2 ^ 1024 - 2 ^ 970)).
  { rewrite <- inject_Z_plus, <- Zlt_Qlt. apply Z.ltb_lt.
    vm_compute. reflexivity. }
  lra.
Qed.

Lemma div_1000_finite n :
  isFinite n = true -> isFinite (div n (of_Z 1000)) = true.
Proof.
  destruct n as [q| | |]; try discriminate. intros H.
  apply in_range_iff in H. rewrite div_1000. apply round64_finite.
  pose proof (max_double_lt_threshold 0 ltac:(discriminate)) as Hm.
  assert (Hq : Qabs (q / inject_Z 1000) <= Qabs q).
  { unfold Qdiv. rewrite Qabs_Qmult.
    pose proof (Qabs_nonneg q).
    change (Qabs (/ inject_Z 1000)) with (1 # 1000). lra. }
  lra.
Qed.

Lemma add_clock_finite (i : Z) n :
  (0 <= i < 2 ^ 53)%Z -> isFinite n = true ->
  isFinite (add (of_Z i) n) = true.
Proof.
  intros Hi. destruct n as [q| | |]; try discriminate. intros H.
  apply in_range_iff in H. unfold add, of_Z. apply round64_finite.
  pose proof (Qabs_triangle (inject_Z i) q) as Ht.
  assert (Hi' : Qabs (inject_Z i) <= inject_Z (2 ^ 53)).
  { rewrite Qabs_pos.
    - rewrite <- Zle_Qle. lia.
    - change 0 with (inject_Z 0). rewrite <- Zle_Qle. lia. }
  pose proof (max_double_lt_threshold (Qabs (inject_Z i)) Hi'). lra.
Qed.

Lemma add_clock_integer (i : Z) n :
  (0 <= i < 2 ^ 53)%Z -> isInteger n = true ->
  isInteger (add (of_Z i) n) = true.
Proof.
  intros Hi Hn.
  assert (Hf : isFinite n = true).
  { destruct n; try discriminate. unfold isInteger in Hn.
    now apply andb_true_iff in Hn as [Hn _]. }
  pose proof (add_clock_finite i n Hi Hf) as Hfin.
  destruct n as [q| | |]; try discriminate.
  unfold isInteger in Hn. apply andb_true_iff in Hn as [_ Hn].
  apply Qeq_bool_iff in Hn.
  unfold add, of_Z in *.
  destruct (round64 (inject_Z i + q)) as [y| | |] eqn:E; try discriminate.
  destruct (round64_integer (inject_Z i + q) (i + Qfloor q) y) as [w ->].
  - rewrite inject_Z_plus, <- Hn. reflexivity.
  - exact E.
  - apply isInteger_Fin_Z, Hfin.
Qed.

(** Whatever the magnitudes, the rounding of a whole number and the
    floor of a rounding are whole numbers or infinities. *)
Lemma round64_whole q z :
  q == inject_Z z ->
  isInteger (round64 q) = true
  \/ round64 q = PosInf \/ round64 q = NegInf.
Proof.
  intros Hq. pose proof (round64_not_NaN q) as Hn.
  destruct (round64 q) as [y| | |] eqn:E; [left|auto|auto|discriminate].
  destruct (round64_integer q z y Hq E) as [w Hw].
  pose proof (round64_range q y E) as Hr. rewrite Hw in Hr |- *.
  apply isInteger_Fin_Z, in_range_iff, Hr.
Qed.

Lemma floor_round64_whole q :
  isInteger (Math_floor (round64 q)) = true
  \/ Math_floor (round64 q) = PosInf \/ Math_floor (round64 q) = NegInf.
Proof.
  pose proof (round64_not_NaN q) as Hn.
  destruct (round64 q) as [y| | |] eqn:E; [left|auto|auto|discriminate].
  apply floor_finite_is_integer, in_range_iff, (round64_range q), E.
Qed.

(** *** [parseInt] rounds as the arithmetic does *)

Lemma ilog2_Z v : (0 < v)%Z -> ilog2 (inject_Z v) = Z.log2 v.
Proof.
  intros Hv. unfold ilog2, inject_Z. cbn [Qnum Qden].
  change (Z.log2 1) with 0%Z. rewrite Z.sub_0_r.
  destruct (Z.log2_spec v Hv) as [Hl _].
  assert (H : Qle_bool (pow2 (Z.log2 v)) (v # 1) = true).
  { apply Qle_bool_iff. rewrite pow2_Z by apply Z.log2_nonneg.
    change (v # 1) with (inject_Z v). now rewrite <- Zle_Qle. }
  now rewrite H.
Qed.

Lemma round_half_even_quotient (v p : Z) :
  (0 < p)%Z ->
  round_half_even (inject_Z v / inject_Z (2 * p))
  = round_even (v / (2 * p)) (v mod (2 * p)) p.
Proof.
  intros Hp. unfold round_half_even, round_even.
  rewrite <- Zdiv_Qdiv.
  pose proof (Z.div_mod v (2 * p) ltac:(lia)) as Hdm.
  pose proof (Z.mod_pos_bound v (2 * p) ltac:(lia)) as Hb.
  set (f := (v / (2 * p))%Z) in *. set (r := (v mod (2 * p))%Z) in *.
  assert (Hx : (inject_Z v / inject_Z (2 * p) - inject_Z f) * inject_Z (2 * p)
               == inject_Z r).
  { rewrite Hdm at 1. rewrite inject_Z_plus, !inject_Z_mult. field.
    change 0 with (inject_Z 0). rewrite inject_Z_injective. lia. }
  assert (Hp2 : 0 < inject_Z (2 * p)).
  { change 0 with (inject_Z 0). rewrite <- Zlt_Qlt. lia. }
  assert (Hpp : inject_Z (2 * p) == 2 * inject_Z p).
  { rewrite inject_Z_mult. reflexivity. }
  remember (inject_Z v / inject_Z (2 * p) - inject_Z f) as x.
  destruct (Z.ltb_spec r p) as [H1|H1].
  - assert (E : Qcompare x (1 # 2) = Lt).
    { apply (proj1 (Qlt_alt _ _)).
      assert (inject_Z r < inject_Z p) by (now rewrite <- Zlt_Qlt).
      nra. }
    now rewrite E.
  - destruct (Z.ltb_spec p r) as [H2|H2].
    + assert (E : Qcompare x (1 # 2) = Gt).
      { apply (proj1 (Qgt_alt _ _)).
        assert (inject_Z p < inject_Z r) by (now rewrite <- Zlt_Qlt).
        nra. }
      now rewrite E.
    + assert (E : Qcompare x (1 # 2) = Eq).
      { apply (proj1 (Qeq_alt _ _)).
        assert (Er : r = p) by lia. rewrite Er in Hx.
        nra. }
      now rewrite E.
Qed.

(** The Number nearest to a whole number, as [parseInt] yields it, is the
    rounding of that number. *)
Lemma nearest_double_round64 v :
  (0 <= v)%Z -> nearest_double v = round64 (inject_Z v).
Proof.
  intros Hv. unfold nearest_double.
  destruct (Z.ltb_spec v (2 ^ 53)) as [Hs|Hl].
  - symmetry. apply round64_Z; [reflexivity|lia].
  - assert (Hpos : (0 < v)%Z) by lia.
    assert (Hq : 0 < inject_Z v).
    { change 0 with (inject_Z 0). now rewrite <- Zlt_Qlt. }
    rewrite (round64_pos _ Hq), (Qred_inject_Z _ v) by reflexivity.
    assert (Hlog : (53 <= Z.log2 v)%Z).
    { apply Z.log2_le_pow2; lia. }
    set (e := (Z.log2 v - 52)%Z).
    assert (He : ulp_exponent (inject_Z v) = e).
    { unfold ulp_exponent. rewrite (ilog2_Z v Hpos). fold e. lia. }
    assert (Hpe : pow2 e == inject_Z (2 * 2 ^ (e - 1))).
    { rewrite pow2_Z by lia.
      replace (2 * 2 ^ (e - 1))%Z with (2 ^ e)%Z; [reflexivity|].
      replace e with (1 + (e - 1))%Z at 1 by ring.
      rewrite Z.pow_add_r by lia. reflexivity. }
    assert (Hm : significand (inject_Z v)
                 = round_even (v / 2 ^ e) (v mod 2 ^ e) (2 ^ (e - 1))).
    { unfold significand. rewrite He.
      assert (E2 : (2 ^ e = 2 * 2 ^ (e - 1))%Z).
      { replace e with (1 + (e - 1))%Z at 1 by ring.
        rewrite Z.pow_add_r by lia. reflexivity. }
      rewrite E2.
      rewrite <- round_half_even_quotient by (apply Z.pow_pos_nonneg; lia).
      unfold round_half_even.
      set (p2 := inject_Z (2 * 2 ^ (e - 1))).
      assert (Ex : inject_Z v / pow2 e == inject_Z v / p2).
      { now rewrite Hpe. }
      rewrite (Qfloor_comp _ _ Ex).
      assert (Ec : Qcompare (inject_Z v / pow2 e
                             - inject_Z (Qfloor (inject_Z v / p2)))
                     (1 # 2)
                   = Qcompare (inject_Z v / p2
                               - inject_Z (Qfloor (inject_Z v / p2)))
                       (1 # 2)).
      { apply Qcompare_comp; [|reflexivity]. now rewrite Ex. }
      now rewrite Ec. }
    cbv zeta. fold e.
    unfold round_pos. rewrite He, Hm.
    set (m := round_even (v / 2 ^ e) (v mod 2 ^ e) (2 ^ (e - 1))).
    assert (Hval : inject_Z m * pow2 e == inject_Z (m * 2 ^ e)).
    { rewrite inject_Z_mult, pow2_Z by lia. reflexivity. }
    destruct (Z.leb_spec (2 ^ 1024) (m * 2 ^ e)) as [Ho|Ho].
    + assert (H : Qle_bool (pow2 1024) (inject_Z m * pow2 e) = true).
      { apply Qle_bool_iff. rewrite Hval, pow2_Z by lia.
        now rewrite <- Zle_Qle. }
      now rewrite H.
    + assert (H : Qle_bool (pow2 1024) (inject_Z m * pow2 e) = false).
      { destruct (Qle_bool _ _) eqn:E; [|reflexivity].
        apply Qle_bool_iff in E. rewrite Hval, pow2_Z in E by lia.
        rewrite <- Zle_Qle in E. lia. }
      rewrite H. unfold of_Z. f_equal. symmetry. apply Qred_inject_Z, Hval.
Qed.

Lemma number_of_Z_round64 v : number_of_Z v = round64 (inject_Z v).
Proof.
  unfold number_of_Z. destruct (Z.ltb_spec v 0) as [Hn|Hp].
  - rewrite nearest_double_round64 by lia.
    assert (Hq : inject_Z v < 0).
    { change 0 with (inject_Z 0). now rewrite <- Zlt_Qlt. }
    assert (Hq' : 0 < inject_Z (- v)).
    { change 0 with (inject_Z 0). rewrite <- Zlt_Qlt. lia. }
    rewrite (round64_neg _ Hq), (round64_pos _ Hq').
    rewrite !(Qred_inject_Z _ _ (Qeq_refl _)). reflexivity.
  - now apply nearest_double_round64.
Qed.

End Binary64.

(* ===================================================================== *)
(** ** The two resolvers *)
(* ===================================================================== *)

Section ResolverProperties.

Variable ms : string -> result ms_value.
Variable now : Z.

Lemma floor_keeps_NaN (n : number) : isNaN (Math_floor n) = isNaN n.
Proof. destruct n; reflexivity. Qed.

Lemma div_1000_keeps_NaN (n : number) :
  isNaN (div n (of_Z 1000)) = isNaN n.
Proof.
  destruct n as [q| | |]; try reflexivity.
  rewrite div_1000. apply round64_not_NaN.
Qed.

Lemma add_now_keeps_NaN (n : number) :
  isNaN (add (of_Z now) n) = isNaN n.
Proof.
  destruct n as [q| | |]; try reflexivity.
  apply round64_not_NaN.
Qed.

(** What the two resolvers return on the two kinds of strings they accept;
    the properties below build on these. *)
Lemma resolvers_on_digits (s : string) :
  isNumeric s = true ->
  checkExpiration ms now s = Ok (parseInt10 s)
  /\ checkExpiresIn ms s = Ok (parseInt10 s).
Proof.
  intros H. unfold checkExpiration, checkExpiresIn. rewrite H.
  cbn [bind]. rewrite (parseInt10_numeric_not_NaN s H). split; reflexivity.
Qed.

Lemma resolvers_on_duration (s : string) (d : Q) :
  isNumeric s = false ->
  ms s = Ok (MsNumber (Fin d)) ->
  checkExpiration ms now s
  = Ok (Math_floor (div (add (of_Z now) (Fin d)) (of_Z 1000)))
  /\ checkExpiresIn ms s = Ok (Math_floor (div (Fin d) (of_Z 1000))).
Proof.
  intros Hs Hd. unfold checkExpiration, checkExpiresIn.
  rewrite Hs, Hd. cbn [bind ToNumber].
  rewrite !floor_keeps_NaN, !div_1000_keeps_NaN, add_now_keeps_NaN.
  split; reflexivity.
Qed.

(** A whole number of milliseconds, with the clock and the sum below
    2^53: nothing is rounded, and the two floors are integer quotients. *)
Lemma resolvers_on_whole_milliseconds (s : string) (d : Z) :
  isNumeric s = false ->
  ms s = Ok (MsNumber (of_Z d)) ->
  (0 <= now)%Z -> (0 <= d)%Z -> (now + d < 2 ^ 53)%Z ->
  checkExpiration ms now s = Ok (of_Z ((now + d) / 1000))
  /\ checkExpiresIn ms s = Ok (of_Z (d / 1000)).
Proof.
  intros Hs Hd Hnow H0 Hsum.
  destruct (resolvers_on_duration s (inject_Z d) Hs Hd) as [Ha Hr].
  rewrite Ha, Hr. change (Fin (inject_Z d)) with (of_Z d).
  rewrite add_of_Z by lia. rewrite !floor_div_1000 by lia.
  split; reflexivity.
Qed.

Lemma resolvers_on_undefined (s : string) :
  isNumeric s = false ->
  ms s = Ok MsUndefined ->
  checkExpiration ms now s = Throw (Error ("Invalid expiration: " ++ s))
  /\ checkExpiresIn ms s = Throw (Error ("Invalid expiresIn: " ++ s)).
Proof.
  intros Hs Hd. unfold checkExpiration, checkExpiresIn.
  rewrite Hs, Hd. split; reflexivity.
Qed.

(** C3. For every string of digits (a match of [^\d+$]), the
    absolute-mode resolver [checkExpiration] returns exactly
    [parseInt(s, 10)], and the relative-mode resolver [checkExpiresIn]
    returns the same number unchanged; that number is the one nearest to
    the decimal value of the string. *)
Theorem numeric_string_resolves_to_parseInt (s : string) :
  isNumeric s = true ->
  checkExpiration ms now s = Ok (parseInt10 s)
  /\ checkExpiresIn ms s = Ok (parseInt10 s)
  /\ parseInt10 s = number_of_Z (decimal_value (list_ascii_of_string s)).
Proof.
  intros H. pose proof (parseInt10_numeric_not_NaN s H) as Hn.
  unfold checkExpiration, checkExpiresIn. rewrite H. simpl.
  rewrite Hn. repeat split. apply parseInt10_numeric, H.
Qed.

(** C4, as the code has it. For every string that is not numeric and
    that the duration parser resolves to [d] milliseconds, with the clock
    at [now], [checkExpiration] returns [Math.floor((now + d) / 1000)] and
    [checkExpiresIn] returns [Math.floor(d / 1000)], where the sum and the
    quotients are the ones of binary64, each rounded to the nearest
    Number.  When [d] is a whole number of milliseconds, not negative, and
    neither the clock is nor the sum reaches 2^53, nothing is rounded:
    the results are the integer quotients of [now + d] and of [d] by
    1000. *)
Theorem duration_string_resolves_to_floor (s : string) (d : Q) :
  isNumeric s = false ->
  ms s = Ok (MsNumber (Fin d)) ->
  checkExpiration ms now s
  = Ok (Math_floor (div (add (of_Z now) (Fin d)) (of_Z 1000)))
  /\ checkExpiresIn ms s = Ok (Math_floor (div (Fin d) (of_Z 1000)))
  /\ forall z : Z,
       d = inject_Z z ->
       (0 <= now)%Z -> (0 <= z)%Z -> (now + z < 2 ^ 53)%Z ->
       checkExpiration ms now s = Ok (of_Z ((now + z) / 1000))
       /\ checkExpiresIn ms s = Ok (of_Z (z / 1000)).
Proof.
  intros Hs Hd.
  destruct (resolvers_on_duration s d Hs Hd) as [Ha Hr].
  split; [exact Ha|]. split; [exact Hr|].
  intros z Hz Hnow H0 Hsum. rewrite Hz in Hd.
  exact (resolvers_on_whole_milliseconds s z Hs Hd Hnow H0 Hsum).
Qed.

(** C5, as the code has it. Both resolvers fail with the error that
    carries the original input ([Invalid expiration: s], resp.
    [Invalid expiresIn: s]) exactly when the value the input stands for
    is NaN, which is what a string without duration syntax gives; every
    other value, an infinite one included, is returned normally; and an
    error thrown by the duration parser itself is passed on unchanged. *)
Theorem resolvers_fail_on_NaN_only (s : string) :
  match Spec.resolved_value ms s with
  | Throw e =>
      checkExpiration ms now s = Throw e /\ checkExpiresIn ms s = Throw e
  | Ok v =>
      if isNaN v then
        checkExpiration ms now s = Throw (Error ("Invalid expiration: " ++ s))
        /\ checkExpiresIn ms s = Throw (Error ("Invalid expiresIn: " ++ s))
      else
        (exists a, checkExpiration ms now s = Ok a /\ isNaN a = false)
        /\ (exists r, checkExpiresIn ms s = Ok r /\ isNaN r = false)
  end.
Proof.
  unfold Spec.resolved_value, checkExpiration, checkExpiresIn.
  destruct (isNumeric s) eqn:Hs.
  - simpl. rewrite (parseInt10_numeric_not_NaN s Hs).
    split; eexists; split; try reflexivity;
      apply parseInt10_numeric_not_NaN, Hs.
  - destruct (ms s) as [v|e]; [|split; reflexivity].
    cbn [bind].
    rewrite !floor_keeps_NaN, !div_1000_keeps_NaN, add_now_keeps_NaN.
    destruct (isNaN (ToNumber v)) eqn:Hv; [split; reflexivity|].
    split; eexists; split; try reflexivity.
    + now rewrite floor_keeps_NaN, div_1000_keeps_NaN, add_now_keeps_NaN.
    + now rewrite floor_keeps_NaN, div_1000_keeps_NaN.
Qed.

(** A string without duration syntax, for which the parser answers
    [undefined], is rejected by both resolvers with the input in the
    message. *)
Lemma unparseable_duration_rejected (s : string) :
  isNumeric s = false ->
  ms s = Ok MsUndefined ->
  checkExpiration ms now s = Throw (Error ("Invalid expiration: " ++ s))
  /\ checkExpiresIn ms s = Throw (Error ("Invalid expiresIn: " ++ s)).
Proof.
  exact (resolvers_on_undefined s).
Qed.

End ResolverProperties.

Lemma sample_2_days_not_numeric : isNumeric "2 days" = false.
Proof. reflexivity. Qed.

Lemma numeric_string_resolves_to_parseInt_witness :
  checkExpiration Sample.ms Sample.now "1700003600" = Ok (parseInt10 "1700003600")
  /\ checkExpiresIn Sample.ms "1700003600" = Ok (parseInt10 "1700003600")
  /\ parseInt10 "1700003600"
     = number_of_Z (decimal_value (list_ascii_of_string "1700003600")).
Proof.
  apply (numeric_string_resolves_to_parseInt Sample.ms Sample.now "1700003600").
  reflexivity.
Defined.

Lemma duration_string_resolves_to_floor_witness :
  checkExpiration Sample.ms Sample.now "2 days" = Ok (of_Z 1700172800)
  /\ checkExpiresIn Sample.ms "2 days" = Ok (of_Z 172800).
Proof.
  apply (proj2 (proj2 (duration_string_resolves_to_floor Sample.ms Sample.now
                         "2 days" (inject_Z 172800000) eq_refl eq_refl))
           172800000%Z eq_refl);
    unfold Sample.now; lia.
Defined.

(** C4 as the specification words it fails: for a duration of a million
    years, [ms] answers 31557600000000000 milliseconds; with the clock at
    1700000000999 the sum is beyond 2^53 and rounds up to the next multiple
    of four, a full second, and [checkExpiration] returns one second more
    than the floor of the exact sum over 1000. *)
Lemma rounded_sum_reaches_the_next_second :
  isNumeric "1000000y" = false
  /\ SamplePlain.ms "1000000y" = Ok (MsNumber (of_Z 31557600000000000))
  /\ checkExpiration SamplePlain.ms 1700000000999 "1000000y"
     = Ok (of_Z 31559300000001)
  /\ ((1700000000999 + 31557600000000000) / 1000 = 31559300000000)%Z.
Proof. vm_compute. repeat split. Qed.

(** The same on a fraction of a second: [ms] answers 499.99999999 for
    [0.49999999999s], and at the clock 1700000000500 the sum rounds to
    1700000001000. *)
Example rounded_fraction_reaches_the_next_second :
  checkExpiration SamplePlain.ms 1700000000500 "0.49999999999s"
  = Ok (of_Z 1700000001)
  /\ exists d : Q,
       SamplePlain.ms "0.49999999999s" = Ok (MsNumber (Fin d))
       /\ Qfloor ((inject_Z 1700000000500 + d) / inject_Z 1000)
          = 1700000000%Z.
Proof.
  split; [vm_compute; reflexivity|].
  eexists. split; [vm_compute; reflexivity|]. vm_compute. reflexivity.
Qed.

(** C5 as the specification words it fails: a digit string beyond the
    binary64 range resolves to [Infinity], a non-finite number, and both
    resolvers return it instead of failing. *)
Lemma infinite_expiration_is_returned :
  isNumeric Sample.nines = true
  /\ isFinite (parseInt10 Sample.nines) = false
  /\ checkExpiration Sample.ms Sample.now Sample.nines = Ok PosInf
  /\ checkExpiresIn Sample.ms Sample.nines = Ok PosInf.
Proof. vm_compute. repeat split. Qed.

Example checkExpiration_2_days :
  checkExpiration Sample.ms Sample.now "2 days" = Ok (of_Z 1700172800).
Proof. vm_compute. reflexivity. Qed.

Example checkExpiresIn_2_days :
  checkExpiresIn Sample.ms "2 days" = Ok (of_Z 172800).
Proof. vm_compute. reflexivity. Qed.

Example checkExpiration_garbage :
  checkExpiration Sample.ms Sample.now "soon"
  = Throw (Error "Invalid expiration: soon").
Proof. reflexivity. Qed.

Example parseInt10_rounds_above_2_53 :
  parseInt10 "9007199254740993" = of_Z 9007199254740992.
Proof. reflexivity. Qed.

(** The arithmetic on some well-known inputs: a sum beyond 2^53 rounds as
    [parseInt] does, 0.1 + 0.2 is not 0.3, and the largest Number doubled
    is [Infinity]. *)
Example binary64_samples :
  add (of_Z 9007199254740992) (of_Z 1) = parseInt10 "9007199254740993"
  /\ add (of_Z 9007199254740992) (of_Z 3) = parseInt10 "9007199254740995"
  /\ div (of_Z 1) (of_Z 10) = Fin (3602879701896397 # 36028797018963968)
  /\ add (div (of_Z 1) (of_Z 10)) (div (of_Z 2) (of_Z 10))
     = Fin (1351079888211149 # 4503599627370496)
  /\ div (of_Z 3) (of_Z 10) = Fin (5404319552844595 # 18014398509481984)
  /\ add (Fin max_double) (Fin max_double) = PosInf
  /\ add (Fin max_double) (of_Z 1) = Fin max_double
  /\ div (of_Z 0) (of_Z 0) = NaN.
Proof. vm_compute. repeat split. Qed.

(* ===================================================================== *)
(** ** Properties of the token signer *)
(* ===================================================================== *)

(** The clock in whole seconds: for a time value, the floor of the
    binary64 quotient is the integer quotient. *)
Lemma clock_seconds now :
  (0 <= now < 2 ^ 53)%Z ->
  Math_floor (div (of_Z now) (of_Z 1000)) = of_Z (now / 1000).
Proof. apply floor_div_1000. Qed.

Section TokenProperties.

Variable ms : string -> result ms_value.
Variable now : Z.
Variable encode : object -> string.
Variable jwa : string -> string -> string -> result string.
Variable readFile : string -> result string.

(** What a successful [jsonwebtoken.sign] returned: the compact
    serialization of the header [{alg, typ, kid}] and of the payload
    extended with [iat] (the clock in whole seconds) and [exp], signed by
    the [jwa] layer. *)
Lemma jsonwebtoken_sign_inv payload key alg kid expiresIn token :
  Jsonwebtoken.sign ms now encode jwa payload key
    (Jsonwebtoken.mkOptions alg kid expiresIn) = Ok token ->
  exists exp signature,
    Jsonwebtoken.timespan ms expiresIn (of_Z (now / 1000)) = Ok (Some exp)
    /\ match expiresIn with
       | Num n => isInteger n = true
       | Str s => s <> EmptyString
       end
    /\ let h := [("alg", JString alg); ("typ", JString "JWT");
                 ("kid", JString kid)] in
       let body :=
         set_property
           (set_property payload "iat" (JNumber (of_Z (now / 1000))))
           "exp" (JNumber exp) in
       jwa alg key (encode h ++ "." ++ encode body) = Ok signature
       /\ token = (encode h ++ "." ++ encode body) ++ "." ++ signature.
Proof.
  unfold Jsonwebtoken.sign. cbn [Jsonwebtoken.expiresIn Jsonwebtoken.algorithm
                                 Jsonwebtoken.keyid].
  destruct (negb _) eqn:Hvalid; [discriminate|].
  apply negb_false_iff in Hvalid.
  destruct (Jsonwebtoken.timespan ms expiresIn (of_Z (now / 1000)))
    as [[exp|]|e] eqn:Hspan; cbn [bind]; try discriminate.
  destruct (jwa alg key _) as [signature|e] eqn:Hsig; cbn [bind];
    [|discriminate].
  intros [= <-]. exists exp, signature. split; [reflexivity|]. split.
  - destruct expiresIn as [s|n]; [|exact Hvalid].
    apply negb_true_iff in Hvalid. now apply String.eqb_neq.
  - split; [exact Hsig|reflexivity].
Qed.

(** With a duration parser that only answers finite numbers, the [exp]
    that [timespan] computes from a validated [expiresIn] is a whole
    number or, when the sum overflows, an infinity; with the clock of a
    time value it is a whole number. *)
Lemma timespan_whole expiresIn iat exp :
  (forall s n, ms s = Ok (MsNumber n) -> isFinite n = true) ->
  match expiresIn with Num n => isInteger n = true | Str _ => True end ->
  Jsonwebtoken.timespan ms expiresIn (of_Z iat) = Ok (Some exp) ->
  isInteger exp = true \/ exp = PosInf \/ exp = NegInf.
Proof.
  intros Hms Hvalid. unfold Jsonwebtoken.timespan.
  destruct expiresIn as [s|n].
  - destruct (ms s) as [[d|]|e] eqn:Hd; cbn [bind]; try discriminate.
    intros H. assert (E : exp = Math_floor (add (of_Z iat) (div d (of_Z 1000))))
      by congruence.
    rewrite E. specialize (Hms s d Hd).
    destruct d as [q| | |]; try discriminate.
    rewrite div_1000. pose proof (round64_not_NaN (q / inject_Z 1000)) as Hn.
    destruct (round64 (q / inject_Z 1000)) as [y| | |];
      [|right; left; reflexivity|right; right; reflexivity|discriminate].
    apply floor_round64_whole.
  - intros H. assert (E : exp = add (of_Z iat) n) by congruence.
    rewrite E. destruct n as [q| | |]; try discriminate.
    unfold isInteger in Hvalid. apply andb_true_iff in Hvalid as [_ Hq].
    apply Qeq_bool_iff in Hq.
    apply (round64_whole _ (iat + Qfloor q)).
    rewrite inject_Z_plus, <- Hq. reflexivity.
Qed.

Lemma timespan_integer expiresIn iat exp :
  (forall s n, ms s = Ok (MsNumber n) -> isFinite n = true) ->
  match expiresIn with Num n => isInteger n = true | Str _ => True end ->
  (0 <= iat < 2 ^ 53)%Z ->
  Jsonwebtoken.timespan ms expiresIn (of_Z iat) = Ok (Some exp) ->
  isInteger exp = true.
Proof.
  intros Hms Hvalid Hiat. unfold Jsonwebtoken.timespan.
  destruct expiresIn as [s|n].
  - destruct (ms s) as [[d|]|e] eqn:Hd; cbn [bind]; try discriminate.
    intros H. assert (E : exp = Math_floor (add (of_Z iat) (div d (of_Z 1000))))
      by congruence.
    rewrite E. apply floor_finite_is_integer, add_clock_finite; [exact Hiat|].
    apply div_1000_finite, (Hms s d Hd).
  - intros H. assert (E : exp = add (of_Z iat) n) by congruence.
    rewrite E. now apply add_clock_integer.
Qed.

Lemma clock_seconds_range :
  (0 <= now < 2 ^ 53)%Z -> (0 <= now / 1000 < 2 ^ 53)%Z.
Proof.
  intros H. split; [apply Z.div_pos; lia|].
  apply Z.div_lt_upper_bound; lia.
Qed.

(** C6. Every token that [sign] returns is the compact serialization of
    the header [{alg: RS256, typ: JWT, kid: keyId}] and of the body
    [{iss: partnerId, sub: videoId, ver: 1.0, aud:
    https://hivestreaming.com, cid: customerId, man: manifests}] followed
    by [iat], the clock in whole seconds, and [exp]; the signature is the
    one of the [jwa] layer for RS256 and the private key.  [exp] is a whole
    number whenever the clock is a time value, not negative and below
    2^53; for any clock at all it is a whole number or an infinity, the
    sum that gives it being a binary64 sum, which overflows at the far end
    of the range.  (The duration parser is taken to answer finite numbers
    only.) *)
Theorem sign_token_contents (this : HiveJwtCreator.t)
    (keyId customerId videoId : string) (manifests : list string)
    (expiresIn : string_or_number) (token : string) :
  (forall s n, ms s = Ok (MsNumber n) -> isFinite n = true) ->
  HiveJwtCreator.sign ms now encode jwa this keyId customerId videoId
    manifests expiresIn = Ok token ->
  exists (exp : number) (signature : string),
    (isInteger exp = true \/ exp = PosInf \/ exp = NegInf)
    /\ ((0 <= now < 2 ^ 53)%Z -> isInteger exp = true)
    /\ let body :=
         [("iss", JString (HiveJwtCreator.partnerId this));
          ("sub", JString videoId);
          ("ver", JString "1.0");
          ("aud", JString "https://hivestreaming.com");
          ("cid", JString customerId);
          ("man", JStrings manifests);
          ("iat", JNumber (of_Z (now / 1000)));
          ("exp", JNumber exp)] in
       jwa "RS256" (HiveJwtCreator.privateKey this)
         (encode (Spec.jwt_header keyId) ++ "." ++ encode body) = Ok signature
       /\ token = (encode (Spec.jwt_header keyId) ++ "." ++ encode body)
                  ++ "." ++ signature.
Proof.
  intros Hms Hsign. unfold HiveJwtCreator.sign in Hsign.
  apply jsonwebtoken_sign_inv in Hsign
    as (exp & signature & Hspan & Hvalid & Hsig & Htok).
  assert (Hvalid' : match expiresIn with
                    | Num n => isInteger n = true
                    | Str _ => True
                    end).
  { destruct expiresIn; [exact I|exact Hvalid]. }
  exists exp, signature. split; [|split].
  - exact (timespan_whole expiresIn (now / 1000) exp Hms Hvalid' Hspan).
  - intros Hnow.
    exact (timespan_integer expiresIn (now / 1000) exp Hms Hvalid'
             (clock_seconds_range Hnow) Hspan).
  - split; [exact Hsig|exact Htok].
Qed.

(** C9. Two runs of the create-jwt handler whose arguments agree on the
    key file, partnerId, keyId, customerId, videoId, manifest and expiresIn
    have the same outcome, whatever their eventName and regexes: [sign]
    declares five parameters and the two extra arguments of the call are
    dropped.  A token that comes out has the body of C6, which has no
    [regexes] property. *)
Theorem create_jwt_ignores_eventName_and_regexes
    (argv1 argv2 : Cli.CreateJwtArguments) :
  Cli.jwt_file argv1 = Cli.jwt_file argv2 ->
  Cli.jwt_partnerId argv1 = Cli.jwt_partnerId argv2 ->
  Cli.jwt_keyId argv1 = Cli.jwt_keyId argv2 ->
  Cli.jwt_customerId argv1 = Cli.jwt_customerId argv2 ->
  Cli.jwt_videoId argv1 = Cli.jwt_videoId argv2 ->
  Cli.jwt_manifest argv1 = Cli.jwt_manifest argv2 ->
  Cli.jwt_expiresIn argv1 = Cli.jwt_expiresIn argv2 ->
  Cli.create_jwt_handler ms now encode jwa readFile argv1
  = Cli.create_jwt_handler ms now encode jwa readFile argv2
  /\ forall token,
       Cli.create_jwt_handler ms now encode jwa readFile argv1 = Ok token ->
       exists key exp signature,
         let body :=
           [("iss", JString (Cli.jwt_partnerId argv1));
            ("sub", JString (Cli.jwt_videoId argv1));
            ("ver", JString "1.0");
            ("aud", JString "https://hivestreaming.com");
            ("cid", JString (Cli.jwt_customerId argv1));
            ("man", JStrings (Cli.jwt_manifest argv1));
            ("iat", JNumber (of_Z (now / 1000)));
            ("exp", JNumber exp)] in
         get_property body "regexes" = None
         /\ jwa "RS256" key
              (encode (Spec.jwt_header (Cli.jwt_keyId argv1)) ++ "." ++ encode body)
            = Ok signature
         /\ token = (encode (Spec.jwt_header (Cli.jwt_keyId argv1)) ++ "."
                     ++ encode body) ++ "." ++ signature.
Proof.
  destruct argv1 as [f1 p1 c1 k1 x1 v1 m1 e1 r1].
  destruct argv2 as [f2 p2 c2 k2 x2 v2 m2 e2 r2].
  cbn [Cli.jwt_file Cli.jwt_partnerId Cli.jwt_keyId Cli.jwt_customerId
       Cli.jwt_videoId Cli.jwt_manifest Cli.jwt_expiresIn].
  intros <- <- <- <- <- <- <-. split; [reflexivity|].
  intros token. unfold Cli.create_jwt_handler, HiveJwtCreator.create.
  destruct (readFile f1) as [key|e]; cbn [bind try_catch]; [|discriminate].
  destruct (HiveJwtCreator.sign _ _ _ _ _ _ _ _ _ _) as [jwt|e] eqn:Hsign;
    cbn [bind]; [|discriminate].
  intros [= <-]. unfold HiveJwtCreator.sign in Hsign.
  apply jsonwebtoken_sign_inv in Hsign
    as (exp & signature & _ & _ & Hsig & Htok).
  exists key, exp, signature. split; [reflexivity|].
  split; [exact Hsig|exact Htok].
Qed.


End TokenProperties.

Lemma sample_ms_finite s n :
  Sample.ms s = Ok (MsNumber n) -> isFinite n = true.
Proof.
  unfold Sample.ms.
  case_ifs; intros [= <-] || discriminate; reflexivity.
Qed.

Lemma sign_token_contents_witness :
  exists (exp : number) (signature : string),
    (isInteger exp = true \/ exp = PosInf \/ exp = NegInf)
    /\ ((0 <= Sample.now < 2 ^ 53)%Z -> isInteger exp = true)
    /\ let body :=
         [("iss", JString "p1"); ("sub", JString "v1"); ("ver", JString "1.0");
          ("aud", JString "https://hivestreaming.com"); ("cid", JString "c1");
          ("man", JStrings ["m1"]);
          ("iat", JNumber (of_Z (Sample.now / 1000)));
          ("exp", JNumber exp)] in
       Sample.jwa "RS256" "PEM"
         (Sample.encode (Spec.jwt_header "k1") ++ "." ++ Sample.encode body)
       = Ok signature
       /\ "{alg:RS256,typ:JWT,kid:k1}.{iss:p1,sub:v1,ver:1.0,aud:https://hivestreaming.com,cid:c1,man:[m1],iat:1700000000,exp:1700036000}.sig(RS256)"
          = (Sample.encode (Spec.jwt_header "k1") ++ "." ++ Sample.encode body)
            ++ "." ++ signature.
Proof.
  apply (sign_token_contents Sample.ms Sample.now Sample.encode Sample.jwa
           (HiveJwtCreator.mk "p1" "PEM") "k1" "c1" "v1" ["m1"] (Str "10h")).
  - exact sample_ms_finite.
  - reflexivity.
Defined.

Lemma create_jwt_ignores_eventName_and_regexes_witness :
  Cli.create_jwt_handler Sample.ms Sample.now Sample.encode Sample.jwa
    Sample.readFile
    (Cli.mkCreateJwt "private.pem" "p1" "c1" "k1" "10h" "v1" ["m1"] None None)
  = Cli.create_jwt_handler Sample.ms Sample.now Sample.encode Sample.jwa
      Sample.readFile
      (Cli.mkCreateJwt "private.pem" "p1" "c1" "k1" "10h" "v1" ["m1"]
         (Some "launch") (Some ["^live/.*"])).
Proof.
  apply (create_jwt_ignores_eventName_and_regexes Sample.ms Sample.now
           Sample.encode Sample.jwa Sample.readFile
           (Cli.mkCreateJwt "private.pem" "p1" "c1" "k1" "10h" "v1" ["m1"]
              None None)
           (Cli.mkCreateJwt "private.pem" "p1" "c1" "k1" "10h" "v1" ["m1"]
              (Some "launch") (Some ["^live/.*"])));
    reflexivity.
Defined.


(** The reporting-url handler on an endpoint that is neither [prod] nor
    [test]. *)
Example reporting_url_staging_rejected :
  Cli.reporting_url_handler Sample.ms Sample.now Sample.encode Sample.jwa
    Sample.readFile
    (Cli.mkReportingUrl "private.pem" "p1" "c1" "k1" "10h" "v1" "staging")
  = Throw (Error "Invalid endpoint: staging").
Proof. reflexivity. Qed.

(** C1, on the code. [sign] on manifests given together with regexes, run
    through the create-jwt handler with the key file [private.pem], the clock at
    [Sample.now] and [expiresIn] of ten hours.  With manifests [a] and
    regexes [b] the call does not fail: it signs a token whose body has
    [man: [a]].  With no manifest and regexes [b] the body has [man: []]
    and no [regexes].  [checkManifestOrArray], which no caller invokes,
    rejects the first pair and builds [{man: [], regexes: [b]}] for the
    second. *)
Lemma sign_accepts_manifests_with_regexes :
  Cli.create_jwt_handler Sample.ms Sample.now Sample.encode Sample.jwa
    Sample.readFile
    (Cli.mkCreateJwt "private.pem" "p1" "c1" "k1" "10h" "v1" ["a"] None
       (Some ["b"]))
  = Ok "{alg:RS256,typ:JWT,kid:k1}.{iss:p1,sub:v1,ver:1.0,aud:https://hivestreaming.com,cid:c1,man:[a],iat:1700000000,exp:1700036000}.sig(RS256)"
  /\ checkManifestOrArray ["a"] (Some ["b"])
     = Throw (Error "Only one of manifest or regex list can be defined.")
  /\ Cli.create_jwt_handler Sample.ms Sample.now Sample.encode Sample.jwa
       Sample.readFile
       (Cli.mkCreateJwt "private.pem" "p1" "c1" "k1" "10h" "v1" [] None
          (Some ["b"]))
     = Ok "{alg:RS256,typ:JWT,kid:k1}.{iss:p1,sub:v1,ver:1.0,aud:https://hivestreaming.com,cid:c1,man:[],iat:1700000000,exp:1700036000}.sig(RS256)"
  /\ checkManifestOrArray [] (Some ["b"])
     = Ok [("man", JStrings []); ("regexes", JStrings ["b"])].
Proof. repeat split. Qed.

(** What [checkManifestOrArray] does on every input: it accepts an empty
    manifest list with a non-empty regex list, and a non-empty manifest list
    with no regex list at all; everything else, two non-empty lists
    included, is the error. *)
Lemma checkManifestOrArray_cases (manifest : list string)
    (regexes : option (list string)) :
  match manifest, regexes with
  | [], Some ((_ :: _) as r) =>
      checkManifestOrArray manifest regexes
      = Ok [("man", JStrings []); ("regexes", JStrings r)]
  | _ :: _, None =>
      checkManifestOrArray manifest regexes = Ok [("man", JStrings manifest)]
  | _, _ =>
      checkManifestOrArray manifest regexes
      = Throw (Error "Only one of manifest or regex list can be defined.")
  end.
Proof.
  destruct manifest as [|m ms], regexes as [[|r rs]|]; reflexivity.
Qed.

(* ===================================================================== *)
(** ** Properties of the registry client *)
(* ===================================================================== *)

Module C := HivePublicKeyServiceClient.

Section RegistryProperties.

Variable ms : string -> result ms_value.
Variable now : Z.
Variable axios : C.Axios -> C.request -> result axios_response.

(** The handler sends nothing and always throws. *)
Lemma axiosErrorHandler_throws {A} this error keyId :
  exists e, @C.axiosErrorHandler A this error keyId = ([], Throw e).
Proof.
  unfold C.axiosErrorHandler, C.io_lift.
  destruct error as [| | | | |code [response|]| |]; try (eexists; reflexivity).
  case_ifs; eexists; reflexivity.
Qed.

(** The error the handler throws for a transport failure, by status. *)
Lemma axiosErrorHandler_400 {A} this code response keyId :
  status response = 400%Z ->
  @C.axiosErrorHandler A this (AxiosError code (Some response)) keyId
  = ([], Throw (HivePublicKeyValidationError (data response))).
Proof. intros H. unfold C.axiosErrorHandler. now rewrite H. Qed.

Lemma axiosErrorHandler_403 {A} this code response keyId :
  status response = 403%Z ->
  @C.axiosErrorHandler A this (AxiosError code (Some response)) keyId
  = ([], Throw HiveAuthorizationError).
Proof. intros H. unfold C.axiosErrorHandler. now rewrite H. Qed.

Lemma axiosErrorHandler_404 {A} this code response keyId :
  status response = 404%Z ->
  @C.axiosErrorHandler A this (AxiosError code (Some response)) keyId
  = ([], Throw (HivePublicKeyNotFoundError (C.partnerId this) keyId)).
Proof. intros H. unfold C.axiosErrorHandler. now rewrite H. Qed.

Lemma axiosErrorHandler_410 {A} this code response keyId :
  status response = 410%Z ->
  @C.axiosErrorHandler A this (AxiosError code (Some response)) keyId
  = ([], Throw (HivePublicKeyDeletedError (C.partnerId this) keyId)).
Proof. intros H. unfold C.axiosErrorHandler. now rewrite H. Qed.

(** Every other failure goes through the handler untouched: a value that
    is not an Axios error, an Axios error without response, a response
    with any other status. *)
Lemma axiosErrorHandler_passes {A} this error keyId :
  (forall code response,
     error = AxiosError code (Some response) ->
     status response <> 400%Z /\ status response <> 403%Z
     /\ status response <> 404%Z /\ status response <> 410%Z) ->
  @C.axiosErrorHandler A this error keyId = ([], Throw error).
Proof.
  intros H. unfold C.axiosErrorHandler.
  destruct error as [| | | | |code [response|]| |]; try reflexivity.
  destruct (H code response eq_refl) as (H0 & H3 & H4 & H1).
  apply Z.eqb_neq in H0, H3, H4, H1. now rewrite H0, H3, H4, H1.
Qed.

(** What each operation does with the answer of the transport: one request
    is sent, and a failure goes to the handler, with the key id for [get]
    and [create], without it for [list] and [delete]. *)
Lemma get_unfold this keyId :
  let r := C.GET ("/publickey/" ++ C.partnerId this ++ "/" ++ keyId) in
  C.get axios this keyId
  = match axios (C.client this) r with
    | Ok res => ([r], Ok (data res))
    | Throw e => ([r], snd (@C.axiosErrorHandler http_data this e (Some keyId)))
    end.
Proof.
  cbv zeta. unfold C.get, C.send, C.io_catch, C.io_bind, C.io_ret.
  destruct (axios _ _) as [res|e]; [reflexivity|].
  destruct (@axiosErrorHandler_throws http_data this e (Some keyId)) as [x ->].
  reflexivity.
Qed.

Lemma list_unfold this (includeDeleted : bool) :
  let r := C.GET ("/publickey/" ++ C.partnerId this ++ "?includeDeleted="
                  ++ (if includeDeleted then "true" else "false")) in
  C.list axios this includeDeleted
  = match axios (C.client this) r with
    | Ok res => ([r], Ok (data res))
    | Throw e => ([r], snd (@C.axiosErrorHandler http_data this e None))
    end.
Proof.
  cbv zeta. unfold C.list, C.send, C.io_catch, C.io_bind, C.io_ret.
  destruct (axios _ _) as [res|e]; [reflexivity|].
  destruct (@axiosErrorHandler_throws http_data this e None) as [x ->].
  reflexivity.
Qed.

Lemma delete_unfold this keyId :
  let r := C.DELETE ("/publickey/" ++ C.partnerId this ++ "/" ++ keyId) in
  C.delete axios this keyId
  = match axios (C.client this) r with
    | Ok _ => ([r], Ok tt)
    | Throw e => ([r], snd (@C.axiosErrorHandler unit this e None))
    end.
Proof.
  cbv zeta. unfold C.delete, C.send, C.io_catch, C.io_bind, C.io_ret.
  destruct (axios _ _) as [res|e]; [reflexivity|].
  destruct (@axiosErrorHandler_throws unit this e None) as [x ->].
  reflexivity.
Qed.

Lemma create_unfold this partnerId keyId exponent modulus expiration :
  C.create ms now axios this partnerId keyId exponent modulus expiration
  = match (match expiration with
           | Str s => checkExpiration ms now s
           | Num n => Ok n
           end) with
    | Throw e => ([], snd (@C.axiosErrorHandler unit this e (Some keyId)))
    | Ok exp =>
        let r := C.POST "/publickey"
                   (C.mkPayload partnerId keyId exponent modulus exp) in
        match axios (C.client this) r with
        | Ok _ => ([r], Ok tt)
        | Throw e => ([r], snd (@C.axiosErrorHandler unit this e (Some keyId)))
        end
    end.
Proof.
  unfold C.create, C.send, C.io_catch, C.io_bind, C.io_ret, C.io_lift.
  destruct (match expiration with Str s => _ | Num n => _ end) as [exp|e].
  - cbv zeta. destruct (axios _ _) as [res|e]; [reflexivity|].
    destruct (@axiosErrorHandler_throws unit this e (Some keyId)) as [x ->].
    reflexivity.
  - destruct (@axiosErrorHandler_throws unit this e (Some keyId)) as [x ->].
    reflexivity.
Qed.

(** A call that sent [req] and got a failure from the transport ends with
    what the handler makes of that failure, for some key id argument. *)
Lemma crud_call_failure this reqs out req err :
  Spec.crud_call ms now axios this reqs out ->
  In req reqs ->
  axios (C.client this) req = Throw err ->
  exists keyId,
    out = Some (match snd (@C.axiosErrorHandler unit this err keyId) with
                | Throw e => e
                | Ok _ => err
                end).
Proof.
  assert (Hty : forall A B e k,
             (match snd (@C.axiosErrorHandler A this e k) with
              | Throw x => Some x | Ok _ => None end)
             = Some (match snd (@C.axiosErrorHandler B this e k) with
                     | Throw x => x | Ok _ => e end)).
  { intros A B e k. unfold C.axiosErrorHandler, C.io_lift.
    destruct e as [| | | | |code [response|]| |]; try reflexivity.
    case_ifs; reflexivity. }
  intros Hcall Hin Herr. destruct Hcall as [keyId|d|p keyId x m expiration|keyId];
    subst c; unfold Spec.thrown, C.outcome, C.sent in *.
  - rewrite get_unfold in *. cbv zeta in *.
    destruct (axios _ (C.GET _)) as [res|e] eqn:Hax;
      destruct Hin as [<-|[]]; rewrite Hax in Herr; inversion Herr; subst.
    exists (Some keyId). apply Hty.
  - rewrite list_unfold in *. cbv zeta in *.
    destruct (axios _ (C.GET _)) as [res|e] eqn:Hax;
      destruct Hin as [<-|[]]; rewrite Hax in Herr; inversion Herr; subst.
    exists None. apply Hty.
  - rewrite create_unfold in *.
    destruct (match expiration with Str s => _ | Num n => _ end) as [exp|e];
      [|destruct Hin].
    cbv zeta in *.
    destruct (axios _ (C.POST _ _)) as [res|e] eqn:Hax;
      destruct Hin as [<-|[]]; rewrite Hax in Herr; inversion Herr; subst.
    exists (Some keyId). apply Hty.
  - rewrite delete_unfold in *. cbv zeta in *.
    destruct (axios _ (C.DELETE _)) as [res|e] eqn:Hax;
      destruct Hin as [<-|[]]; rewrite Hax in Herr; inversion Herr; subst.
    exists None. apply Hty.
Qed.

(** C2. Whichever of [get], [list], [create] and [delete] sent the request,
    a failure of the transport is mapped by the response status alone: 400
    to [HivePublicKeyValidationError] with the response body, 403 to
    [HiveAuthorizationError], 404 to [HivePublicKeyNotFoundError] and 410 to
    [HivePublicKeyDeletedError] for the partner of the client; any other
    failure is thrown again as it came. *)
Theorem registry_errors_mapped_by_status (this : C.t)
    (reqs : list C.request) (out : option exn) (req : C.request) (err : exn) :
  Spec.crud_call ms now axios this reqs out ->
  In req reqs ->
  axios (C.client this) req = Throw err ->
  (forall code response,
     err = AxiosError code (Some response) ->
     (status response = 400%Z ->
      out = Some (HivePublicKeyValidationError (data response)))
     /\ (status response = 403%Z -> out = Some HiveAuthorizationError)
     /\ (status response = 404%Z ->
         exists keyId,
           out = Some (HivePublicKeyNotFoundError (C.partnerId this) keyId))
     /\ (status response = 410%Z ->
         exists keyId,
           out = Some (HivePublicKeyDeletedError (C.partnerId this) keyId))
     /\ forall e, out = Some e ->
                  Spec.kind_of_error e = Spec.kind_of_status (status response))
  /\ ((forall code response,
         err = AxiosError code (Some response) ->
         status response <> 400%Z /\ status response <> 403%Z
         /\ status response <> 404%Z /\ status response <> 410%Z) ->
      out = Some err).
Proof.
  intros Hcall Hin Herr.
  destruct (crud_call_failure this reqs out req err Hcall Hin Herr)
    as [keyId ->].
  split.
  - intros code response ->. repeat split.
    + intros H. now rewrite (axiosErrorHandler_400 _ _ _ _ H).
    + intros H. now rewrite (axiosErrorHandler_403 _ _ _ _ H).
    + intros H. exists keyId. now rewrite (axiosErrorHandler_404 _ _ _ _ H).
    + intros H. exists keyId. now rewrite (axiosErrorHandler_410 _ _ _ _ H).
    + intros e [= <-]. unfold C.axiosErrorHandler, Spec.kind_of_status, C.io_lift.
      case_ifs; reflexivity.
  - intros H. now rewrite (axiosErrorHandler_passes this err keyId H).
Qed.

End RegistryProperties.

Section RegistryRequests.

Variable ms : string -> result ms_value.
Variable now : Z.
Variable axios : C.Axios -> C.request -> result axios_response.

(** C8, as the code has it. [create] resolves a string expiration with
    [checkExpiration] before it sends anything: the one request it sends is the POST of the
    payload whose expiration is the resolved number.  That number is
    [parseInt] of a digit string, and for a duration of [d] milliseconds
    it is [Math.floor((now + d) / 1000)] as binary64 computes it, which is
    the integer quotient of [now + d] by 1000 when [d] is a whole number,
    not negative, and neither the clock is nor the sum reaches 2^53.  When
    the string does not resolve nothing is sent.  A numeric expiration
    goes into the payload unchanged. *)
Theorem create_resolves_expiration_before_sending (this : C.t)
    (partnerId keyId exponent modulus : string) :
  let create := C.create ms now axios this partnerId keyId exponent modulus in
  let post exp :=
    [C.POST "/publickey" (C.mkPayload partnerId keyId exponent modulus exp)] in
  (forall s exp,
     checkExpiration ms now s = Ok exp -> C.sent (create (Str s)) = post exp)
  /\ (forall s,
        isNumeric s = true -> C.sent (create (Str s)) = post (parseInt10 s))
  /\ (forall s d,
        isNumeric s = false -> ms s = Ok (MsNumber (Fin d)) ->
        C.sent (create (Str s))
        = post (Math_floor (div (add (of_Z now) (Fin d)) (of_Z 1000))))
  /\ (forall s d,
        isNumeric s = false -> ms s = Ok (MsNumber (of_Z d)) ->
        (0 <= now)%Z -> (0 <= d)%Z -> (now + d < 2 ^ 53)%Z ->
        C.sent (create (Str s)) = post (of_Z ((now + d) / 1000)))
  /\ (forall s,
        isNumeric s = false -> ms s = Ok MsUndefined ->
        C.sent (create (Str s)) = []
        /\ C.outcome (create (Str s))
           = Throw (Error ("Invalid expiration: " ++ s)))
  /\ (forall n, C.sent (create (Num n)) = post n).
Proof.
  cbv zeta.
  assert (Hsent : forall s exp,
             checkExpiration ms now s = Ok exp ->
             C.sent (C.create ms now axios this partnerId keyId exponent
                       modulus (Str s))
             = [C.POST "/publickey"
                  (C.mkPayload partnerId keyId exponent modulus exp)]).
  { intros s exp H. rewrite create_unfold, H. cbv zeta.
    destruct (axios _ _); reflexivity. }
  split; [exact Hsent|]. split; [|split; [|split; [|split]]].
  - intros s H. apply Hsent.
    apply (resolvers_on_digits ms now s H).
  - intros s d Hs Hd. apply Hsent.
    apply (resolvers_on_duration ms now s d Hs Hd).
  - intros s d Hs Hd Hnow H0 Hsum. apply Hsent.
    apply (resolvers_on_whole_milliseconds ms now s d Hs Hd Hnow H0 Hsum).
  - intros s Hs Hu. rewrite create_unfold.
    destruct (unparseable_duration_rejected ms now s Hs Hu) as [-> _].
    split; reflexivity.
  - intros n. rewrite create_unfold. cbv zeta.
    destruct (axios _ _); reflexivity.
Qed.

(** C10. On a 404 or 410 answer, [list] and [delete] throw
    [HivePublicKeyNotFoundError], resp. [HivePublicKeyDeletedError], built
    without a key id: the message names the partner and renders the key id
    as [undefined].  [get] and [create] pass the key id they were called
    with. *)
Theorem list_and_delete_errors_lack_key_id (this : C.t)
    (code : string) (response : axios_response) :
  let err := AxiosError code (Some response) in
  let without_key :=
    if (status response =? 404)%Z
    then HivePublicKeyNotFoundError (C.partnerId this) None
    else HivePublicKeyDeletedError (C.partnerId this) None in
  let with_key keyId :=
    if (status response =? 404)%Z
    then HivePublicKeyNotFoundError (C.partnerId this) (Some keyId)
    else HivePublicKeyDeletedError (C.partnerId this) (Some keyId) in
  status response = 404%Z \/ status response = 410%Z ->
  (forall includeDeleted : bool,
     axios (C.client this)
       (C.GET ("/publickey/" ++ C.partnerId this ++ "?includeDeleted="
               ++ (if includeDeleted then "true" else "false")))
     = Throw err ->
     C.outcome (C.list axios this includeDeleted) = Throw without_key)
  /\ (forall keyId,
        axios (C.client this)
          (C.DELETE ("/publickey/" ++ C.partnerId this ++ "/" ++ keyId))
        = Throw err ->
        C.outcome (C.delete axios this keyId) = Throw without_key)
  /\ message without_key
     = (if (status response =? 404)%Z then "Public key not found: "
        else "Public key has been deleted: ")
       ++ C.partnerId this ++ "/undefined"
  /\ (forall keyId,
        axios (C.client this)
          (C.GET ("/publickey/" ++ C.partnerId this ++ "/" ++ keyId))
        = Throw err ->
        C.outcome (C.get axios this keyId) = Throw (with_key keyId))
  /\ (forall partnerId keyId exponent modulus exp,
        axios (C.client this)
          (C.POST "/publickey"
             (C.mkPayload partnerId keyId exponent modulus exp))
        = Throw err ->
        C.outcome (C.create ms now axios this partnerId keyId exponent
                     modulus (Num exp))
        = Throw (with_key keyId))
  /\ (forall keyId,
        message (with_key keyId)
        = (if (status response =? 404)%Z then "Public key not found: "
           else "Public key has been deleted: ")
          ++ C.partnerId this ++ "/" ++ keyId).
Proof.
  cbv zeta. intros Hst.
  assert (Hh : forall A k,
             @C.axiosErrorHandler A this (AxiosError code (Some response)) k
             = ([], Throw (if (status response =? 404)%Z
                           then HivePublicKeyNotFoundError (C.partnerId this) k
                           else HivePublicKeyDeletedError (C.partnerId this) k))).
  { intros A k. destruct Hst as [H|H].
    - rewrite (axiosErrorHandler_404 _ _ _ _ H), H. reflexivity.
    - rewrite (axiosErrorHandler_410 _ _ _ _ H), H. reflexivity. }
  repeat split.
  - intros d H. unfold C.outcome. rewrite list_unfold. cbv zeta.
    rewrite H, Hh. reflexivity.
  - intros k H. unfold C.outcome. rewrite delete_unfold. cbv zeta.
    rewrite H, Hh. reflexivity.
  - destruct (status response =? 404)%Z; reflexivity.
  - intros k H. unfold C.outcome. rewrite get_unfold. cbv zeta.
    rewrite H, Hh. reflexivity.
  - intros p k x m exp H. unfold C.outcome. rewrite create_unfold. cbv zeta.
    rewrite H, Hh. reflexivity.
  - intros k. destruct (status response =? 404)%Z; reflexivity.
Qed.

End RegistryRequests.

Lemma registry_errors_mapped_by_status_witness :
  Spec.thrown (C.delete (Sample.axios_status 403 (DataOther "Forbidden"))
                 Sample.registry "k1")
  = Some HiveAuthorizationError.
Proof.
  pose (axios := Sample.axios_status 403 (DataOther "Forbidden")).
  pose (req := C.DELETE "/publickey/p1/k1").
  refine (proj1 (proj2 (proj1
    (registry_errors_mapped_by_status Sample.ms Sample.now axios
       Sample.registry [req] _ req
       (AxiosError "ERR_BAD_REQUEST"
          (Some (mkResponse (DataOther "Forbidden") 403)))
       (Spec.call_delete Sample.ms Sample.now axios Sample.registry "k1")
       (or_introl eq_refl) eq_refl)
    "ERR_BAD_REQUEST" (mkResponse (DataOther "Forbidden") 403) eq_refl))
    eq_refl).
Defined.

Lemma create_resolves_expiration_before_sending_witness :
  C.sent (C.create Sample.ms Sample.now Sample.axios_ok Sample.registry
            "p1" "k1" "AQAB" "modulus" (Str "2 days"))
  = [C.POST "/publickey"
       (C.mkPayload "p1" "k1" "AQAB" "modulus" (of_Z 1700172800))].
Proof.
  apply (proj1 (create_resolves_expiration_before_sending Sample.ms
                  Sample.now Sample.axios_ok Sample.registry
                  "p1" "k1" "AQAB" "modulus")).
  reflexivity.
Defined.

Lemma list_and_delete_errors_lack_key_id_witness :
  C.outcome (C.delete (Sample.axios_status 404 (DataOther "Not Found"))
               Sample.registry "k1")
  = Throw (HivePublicKeyNotFoundError "p1" None).
Proof.
  apply (proj1 (proj2
    (list_and_delete_errors_lack_key_id Sample.ms Sample.now
       (Sample.axios_status 404 (DataOther "Not Found")) Sample.registry
       "ERR_BAD_REQUEST" (mkResponse (DataOther "Not Found") 404)
       (or_introl eq_refl)))).
  reflexivity.
Defined.

Example delete_404_message :
  option_map message
    (Spec.thrown (C.delete (Sample.axios_status 404 (DataOther "Not Found"))
                    Sample.registry "k1"))
  = Some "Public key not found: p1/undefined".
Proof. reflexivity. Qed.

Example get_410_message :
  option_map message
    (Spec.thrown (C.get (Sample.axios_status 410 (DataOther "Gone"))
                    Sample.registry "k1"))
  = Some "Public key has been deleted: p1/k1".
Proof. reflexivity. Qed.

(** A status outside the four is no registry error: the error of axios
    comes through, with the message axios gave it. *)
Example get_500_message :
  option_map message
    (Spec.thrown (C.get (Sample.axios_status 500 (DataOther "Oops"))
                    Sample.registry "k1"))
  = Some "Request failed with status code 500".
Proof. reflexivity. Qed.

Example list_connection_refused :
  C.list Sample.axios_down Sample.registry false
  = ([C.GET "/publickey/p1?includeDeleted=false"],
     Throw (AxiosError "ECONNREFUSED" None)).
Proof. reflexivity. Qed.

(** C8 as the specification words it fails: for a duration of a million
    years, 31557600000000000 milliseconds, with the clock at 1700000000999,
    the expiration that [create] sends is one second more than the sum of
    clock and duration floored to whole seconds: the sum is rounded before
    it is divided. *)
Lemma create_sends_the_rounded_expiration :
  C.sent (C.create SamplePlain.ms 1700000000999 Sample.axios_ok
            Sample.registry "p1" "k1" "AQAB" "modulus" (Str "1000000y"))
  = [C.POST "/publickey"
       (C.mkPayload "p1" "k1" "AQAB" "modulus" (of_Z 31559300000001))]
  /\ SamplePlain.ms "1000000y" = Ok (MsNumber (of_Z 31557600000000000))
  /\ ((1700000000999 + 31557600000000000) / 1000 = 31559300000000)%Z.
Proof. vm_compute. repeat split. Qed.

(** The same on a fraction of a second. *)
Example create_sends_the_rounded_fraction :
  C.sent (C.create SamplePlain.ms 1700000000500 Sample.axios_ok
            Sample.registry "p1" "k1" "AQAB" "modulus"
            (Str "0.49999999999s"))
  = [C.POST "/publickey"
       (C.mkPayload "p1" "k1" "AQAB" "modulus" (of_Z 1700000001))].
Proof. vm_compute. reflexivity. Qed.

Example create_unresolvable_expiration :
  C.create Sample.ms Sample.now Sample.axios_ok Sample.registry
    "p1" "k1" "AQAB" "modulus" (Str "soon")
  = ([], Throw (Error "Invalid expiration: soon")).
Proof. reflexivity. Qed.

(* ===================================================================== *)
(** ** Further properties: the validation functions *)
(* ===================================================================== *)

Lemma digit_value_range c : is_digit c = true -> (0 <= digit_value c <= 9)%Z.
Proof.
  destruct c as [[] [] [] [] [] [] [] []]; vm_compute; intros H;
    try discriminate; split; discriminate.
Qed.

Lemma decimal_value_nonneg ds :
  forallb is_digit ds = true -> (0 <= decimal_value ds)%Z.
Proof.
  unfold decimal_value.
  assert (H : forall acc, (0 <= acc)%Z -> forallb is_digit ds = true ->
              (0 <= fold_left (fun a c => 10 * a + digit_value c) ds acc)%Z).
  { induction ds as [|c r IH]; intros acc Hacc Hd; [exact Hacc|].
    simpl in Hd. apply andb_true_iff in Hd as [Hc Hr].
    cbn [fold_left]. apply IH; [|exact Hr].
    pose proof (digit_value_range c Hc). lia. }
  apply H. lia.
Qed.

Lemma isNumeric_all_digits s :
  isNumeric s = true -> forallb is_digit (list_ascii_of_string s) = true.
Proof. destruct s; [discriminate|exact (fun H => H)]. Qed.

Lemma number_of_Z_small v :
  (0 <= v < 2 ^ 53)%Z -> number_of_Z v = of_Z v.
Proof.
  intros [H0 H1]. unfold number_of_Z, nearest_double.
  destruct (Z.ltb_spec v 0); [lia|].
  destruct (Z.ltb_spec v (2 ^ 53)); [reflexivity|lia].
Qed.

Section ValidationProperties.

Variable ms : string -> result ms_value.

(** Whether [checkExpiration] accepts a string is whether [checkExpiresIn]
    does, at any clock. *)
Lemma checkExpiration_accepts (t : Z) (s : string) :
  Notions.accepts (checkExpiration ms t s)
  = Notions.accepts (checkExpiresIn ms s).
Proof.
  unfold checkExpiration, checkExpiresIn.
  destruct (isNumeric s) eqn:Hs.
  - cbn [bind]. rewrite (parseInt10_numeric_not_NaN s Hs). reflexivity.
  - destruct (ms s) as [v|e]; [|reflexivity]. cbn [bind].
    rewrite !floor_keeps_NaN, !div_1000_keeps_NaN, add_now_keeps_NaN.
    destruct (isNaN (ToNumber v)); reflexivity.
Qed.

(** X1. A string of digits whose decimal value [v] is below 2^53 resolves
    to exactly [v] in both modes, whatever the clock and the duration
    parser: an absolute timestamp is taken verbatim, leading zeros
    included, and it is never negative. *)
Theorem digits_below_2_53_resolve_exactly (now : Z) (s : string) :
  isNumeric s = true ->
  (decimal_value (list_ascii_of_string s) < 2 ^ 53)%Z ->
  (0 <= decimal_value (list_ascii_of_string s))%Z
  /\ checkExpiration ms now s
     = Ok (of_Z (decimal_value (list_ascii_of_string s)))
  /\ checkExpiresIn ms s
     = Ok (of_Z (decimal_value (list_ascii_of_string s))).
Proof.
  intros Hs Hv.
  pose proof (decimal_value_nonneg _ (isNumeric_all_digits s Hs)) as H0.
  destruct (resolvers_on_digits ms now s Hs) as [Ha Hr].
  rewrite Ha, Hr, (parseInt10_numeric s Hs), number_of_Z_small by lia.
  repeat split. exact H0.
Qed.

(** X2. For a duration of a whole number [d] of milliseconds, not
    negative, with the clock not negative and the sum of the two below
    2^53, where binary64 adds them exactly, the absolute expiration is the
    clock in whole seconds plus the relative expiration, or one second
    more when the milliseconds of the clock and of the duration add up to
    a full second. *)
Theorem absolute_is_clock_plus_relative (now : Z) (s : string) (d : Z) :
  isNumeric s = false ->
  ms s = Ok (MsNumber (of_Z d)) ->
  (0 <= now)%Z -> (0 <= d)%Z -> (now + d < 2 ^ 53)%Z ->
  exists a r : Z,
    checkExpiration ms now s = Ok (of_Z a)
    /\ checkExpiresIn ms s = Ok (of_Z r)
    /\ (a = now / 1000 + r \/ a = now / 1000 + r + 1)%Z
    /\ (a = now / 1000 + r + 1 <-> 1000 <= now mod 1000 + d mod 1000)%Z.
Proof.
  intros Hs Hd Hnow H0 Hsum.
  destruct (resolvers_on_whole_milliseconds ms now s d Hs Hd Hnow H0 Hsum)
    as [Ha Hr].
  exists ((now + d) / 1000)%Z, (d / 1000)%Z.
  split; [exact Ha|]. split; [exact Hr|].
  pose proof (Z.div_mod now 1000 ltac:(lia)).
  pose proof (Z.div_mod d 1000 ltac:(lia)).
  pose proof (Z.div_mod (now + d) 1000 ltac:(lia)).
  pose proof (Z.mod_pos_bound now 1000 ltac:(lia)).
  pose proof (Z.mod_pos_bound d 1000 ltac:(lia)).
  pose proof (Z.mod_pos_bound (now + d) 1000 ltac:(lia)).
  lia.
Qed.

(** X3. The two resolvers accept the same strings, and whether a string is
    accepted does not depend on the clock: a string that passed the check
    of a command is not rejected when the handler resolves it again
    later. *)
Theorem resolvers_accept_the_same_strings (now now' : Z) (s : string) :
  Notions.accepts (checkExpiration ms now s)
  = Notions.accepts (checkExpiresIn ms s)
  /\ Notions.accepts (checkExpiration ms now s)
     = Notions.accepts (checkExpiration ms now' s).
Proof.
  split; [apply checkExpiration_accepts|].
  now rewrite !checkExpiration_accepts.
Qed.

End ValidationProperties.

(** X4. [checkManifestOrArray] accepts two shapes only: no manifest with a
    non-empty regex list, and a non-empty manifest list with the regexes
    argument absent.  Two empty lists, a manifest list next to a regex
    list, even an empty one, and no manifest without regexes are all the
    same error.  What it returns carries the manifest list under [man],
    and the regex list under [regexes] in the first shape. *)
Theorem checkManifestOrArray_accepts_iff (manifest : list string)
    (regexes : option (list string)) :
  (Notions.accepts (checkManifestOrArray manifest regexes) = true <->
   (manifest = [] /\ exists r, regexes = Some r /\ r <> [])
   \/ (manifest <> [] /\ regexes = None))
  /\ (forall o,
        checkManifestOrArray manifest regexes = Ok o ->
        get_property o "man" = Some (JStrings manifest)
        /\ get_property o "regexes" = option_map JStrings regexes)
  /\ (Notions.accepts (checkManifestOrArray manifest regexes) = false ->
      checkManifestOrArray manifest regexes
      = Throw (Error "Only one of manifest or regex list can be defined.")).
Proof.
  split; [|split].
  - destruct manifest as [|m l], regexes as [[|r rs]|]; cbn; split;
      try discriminate;
      try (intros [[H1 (x & H2 & H3)]|[H1 H2]]; congruence).
    + intros _. left. split; [reflexivity|]. exists (r :: rs). now split.
    + intros _. right. now split.
  - intros o.
    destruct manifest as [|m l], regexes as [[|r rs]|]; cbn;
      try discriminate; intros [= <-]; split; reflexivity.
  - destruct manifest as [|m l], regexes as [[|r rs]|]; cbn;
      try discriminate; reflexivity.
Qed.

Lemma digits_below_2_53_resolve_exactly_witness :
  (0 <= decimal_value (list_ascii_of_string "0042"))%Z
  /\ checkExpiration Sample.ms Sample.now "0042" = Ok (of_Z 42)
  /\ checkExpiresIn Sample.ms "0042" = Ok (of_Z 42).
Proof.
  apply (digits_below_2_53_resolve_exactly Sample.ms Sample.now "0042");
    reflexivity.
Defined.

Lemma absolute_is_clock_plus_relative_witness :
  exists a r : Z,
    checkExpiration Sample.ms Sample.now "10h" = Ok (of_Z a)
    /\ checkExpiresIn Sample.ms "10h" = Ok (of_Z r)
    /\ (a = Sample.now / 1000 + r \/ a = Sample.now / 1000 + r + 1)%Z
    /\ (a = Sample.now / 1000 + r + 1
        <-> 1000 <= Sample.now mod 1000 + 36000000 mod 1000)%Z.
Proof.
  apply (absolute_is_clock_plus_relative Sample.ms Sample.now "10h" 36000000);
    try reflexivity; unfold Sample.now; lia.
Defined.

(* ===================================================================== *)
(** ** Further properties: tokens and the commands that sign them *)
(* ===================================================================== *)

Section SigningProperties.

Variable ms : string -> result ms_value.
Variable now : Z.
Variable encode : object -> string.
Variable jwa : string -> string -> string -> result string.
Variable readFile : string -> result string.

(** The expiration that [timespan] computes from a duration string and
    from a number of seconds, in the range where binary64 is exact. *)
Lemma timespan_of_whole_milliseconds (s : string) (d iat : Z) :
  ms s = Ok (MsNumber (of_Z d)) ->
  (0 <= iat)%Z -> (0 <= d)%Z -> (iat + d / 1000 < 2 ^ 43)%Z ->
  Jsonwebtoken.timespan ms (Str s) (of_Z iat)
  = Ok (Some (of_Z (iat + d / 1000))).
Proof.
  intros H Hi Hd Hsum. unfold Jsonwebtoken.timespan. rewrite H. cbn [bind].
  now rewrite floor_add_div_1000.
Qed.

Lemma timespan_of_whole_seconds (v iat : Z) :
  (0 <= iat + v < 2 ^ 53)%Z ->
  Jsonwebtoken.timespan ms (Num (of_Z v)) (of_Z iat)
  = Ok (Some (of_Z (iat + v))).
Proof.
  intros H. unfold Jsonwebtoken.timespan. now rewrite add_of_Z.
Qed.

(** The relative resolver on a whole number of milliseconds. *)
Lemma checkExpiresIn_whole_milliseconds (s : string) (d : Z) :
  isNumeric s = false ->
  ms s = Ok (MsNumber (of_Z d)) ->
  (0 <= d < 2 ^ 53)%Z ->
  checkExpiresIn ms s = Ok (of_Z (d / 1000)).
Proof.
  intros Hs Hd Hr.
  destruct (resolvers_on_duration ms 0 s (inject_Z d) Hs Hd) as [_ ->].
  change (Fin (inject_Z d)) with (of_Z d). now rewrite floor_div_1000.
Qed.

(** What a successful [sign] of a creator returned, in the notions above. *)
Lemma sign_inv this keyId customerId videoId manifests expiresIn token :
  HiveJwtCreator.sign ms now encode jwa this keyId customerId videoId
    manifests expiresIn = Ok token ->
  exists exp signature,
    Jsonwebtoken.timespan ms expiresIn (of_Z (now / 1000)) = Ok (Some exp)
    /\ match expiresIn with
       | Num n => isInteger n = true
       | Str s => s <> EmptyString
       end
    /\ jwa "RS256" (HiveJwtCreator.privateKey this)
         (encode (Spec.jwt_header keyId) ++ "."
          ++ encode (Notions.token_body (HiveJwtCreator.partnerId this)
                       videoId customerId ("man", JStrings manifests)
                       (now / 1000) exp))
       = Ok signature
    /\ token = Notions.compact encode keyId
                 (Notions.token_body (HiveJwtCreator.partnerId this) videoId
                    customerId ("man", JStrings manifests) (now / 1000) exp)
                 signature.
Proof.
  intros H. unfold HiveJwtCreator.sign in H.
  apply jsonwebtoken_sign_inv in H as (exp & sg & Hspan & Hvalid & Hsig & Htok).
  exists exp, sg. repeat split; assumption.
Qed.

(** The create-jwt handlers return a token only if the key file was read
    and [sign] returned it. *)
Lemma cli_create_jwt_inv argv token :
  Cli.create_jwt_handler ms now encode jwa readFile argv = Ok token ->
  exists key,
    readFile (Cli.jwt_file argv) = Ok key
    /\ HiveJwtCreator.sign ms now encode jwa
         (HiveJwtCreator.mk (Cli.jwt_partnerId argv) key)
         (Cli.jwt_keyId argv) (Cli.jwt_customerId argv) (Cli.jwt_videoId argv)
         (Cli.jwt_manifest argv) (Str (Cli.jwt_expiresIn argv)) = Ok token.
Proof.
  destruct argv as [f p c k x v m e r].
  unfold Cli.create_jwt_handler, HiveJwtCreator.create.
  cbn [Cli.jwt_file Cli.jwt_partnerId Cli.jwt_keyId Cli.jwt_customerId
       Cli.jwt_videoId Cli.jwt_manifest Cli.jwt_expiresIn].
  destruct (readFile f) as [key|ex]; cbn [bind try_catch]; [|discriminate].
  destruct (HiveJwtCreator.sign _ _ _ _ _ _ _ _ _ _) as [jwt|ex] eqn:Hs;
    cbn [bind]; [|discriminate].
  intros [= <-]. exists key. split; [reflexivity|exact Hs].
Qed.

Lemma script_create_jwt_inv argv token :
  Script.create_jwt_handler ms now encode jwa readFile argv = Ok token ->
  exists exp key,
    checkExpiresIn ms (Script.jwt_expiresIn argv) = Ok exp
    /\ readFile (Script.jwt_file argv) = Ok key
    /\ HiveJwtCreator.sign ms now encode jwa
         (HiveJwtCreator.mk (Script.jwt_partnerId argv) key)
         (Script.jwt_keyId argv) (Script.jwt_customerId argv)
         (Script.jwt_videoId argv) (Script.jwt_manifest argv) (Num exp)
       = Ok token.
Proof.
  unfold Script.create_jwt_handler, HiveJwtCreator.create.
  destruct (checkExpiresIn ms _) as [exp|ex]; cbn [bind]; [|discriminate].
  destruct (readFile _) as [key|ex]; cbn [bind try_catch]; [|discriminate].
  destruct (HiveJwtCreator.sign _ _ _ _ _ _ _ _ _ _) as [jwt|ex] eqn:Hs;
    cbn [bind]; [|discriminate].
  intros [= <-]. exists exp, key. repeat split. exact Hs.
Qed.

(** X5. Every URL that [signReporting] returns is the redirect URL of the
    endpoint followed by a token whose body is [{iss: partnerId, sub:
    videoId, ver: 1.0, aud: https://hivestreaming.com, cid: customerId,
    act: reporting}] with [iat], the clock in whole seconds, and [exp]: a
    reporting token names no manifest.  [exp] is a whole number whenever
    the clock is a time value, not negative and below 2^53; for any clock
    at all it is a whole number or an infinity, the sum that gives it
    being a binary64 sum, which overflows at the far end of the range.
    (The duration parser is taken to answer finite numbers only.) *)
Theorem signReporting_token_contents (this : HiveJwtCreator.t)
    (keyId customerId videoId : string) (expiresIn : string_or_number)
    (endpoint url : string) :
  (forall s n, ms s = Ok (MsNumber n) -> isFinite n = true) ->
  HiveJwtCreator.signReporting ms now encode jwa this keyId customerId
    videoId expiresIn endpoint = Ok url ->
  exists (exp : number) (signature : string),
    let body := Notions.token_body (HiveJwtCreator.partnerId this) videoId
                  customerId ("act", JString "reporting") (now / 1000) exp in
    (isInteger exp = true \/ exp = PosInf \/ exp = NegInf)
    /\ ((0 <= now < 2 ^ 53)%Z -> isInteger exp = true)
    /\ get_property body "man" = None
    /\ jwa "RS256" (HiveJwtCreator.privateKey this)
         (encode (Spec.jwt_header keyId) ++ "." ++ encode body) = Ok signature
    /\ url = Notions.reporting_url endpoint
               (Notions.compact encode keyId body signature).
Proof.
  intros Hms. unfold HiveJwtCreator.signReporting.
  destruct (Jsonwebtoken.sign _ _ _ _ _ _ _) as [token|ex] eqn:Hs;
    cbn [bind]; [|discriminate].
  intros [= <-].
  apply jsonwebtoken_sign_inv in Hs as (exp & sg & Hspan & Hvalid & Hsig & Htok).
  assert (Hvalid' : match expiresIn with
                    | Num n => isInteger n = true
                    | Str _ => True
                    end).
  { destruct expiresIn; [exact I|exact Hvalid]. }
  exists exp, sg. cbv zeta. split; [|split].
  - exact (timespan_whole ms expiresIn (now / 1000) exp Hms Hvalid' Hspan).
  - intros Hnow.
    exact (timespan_integer ms expiresIn (now / 1000) exp Hms Hvalid'
             (clock_seconds_range now Hnow) Hspan).
  - split; [reflexivity|]. split; [exact Hsig|]. rewrite Htok. reflexivity.
Qed.

(** X6. Two tokens signed by the same creator for the same customer, video,
    manifests and [expiresIn], under two key ids, have the same body: the
    key id shows in the [kid] of the header (and in the signature) only. *)
Theorem sign_key_id_only_in_header (this : HiveJwtCreator.t)
    (keyId1 keyId2 customerId videoId : string) (manifests : list string)
    (expiresIn : string_or_number) (token1 token2 : string) :
  HiveJwtCreator.sign ms now encode jwa this keyId1 customerId videoId
    manifests expiresIn = Ok token1 ->
  HiveJwtCreator.sign ms now encode jwa this keyId2 customerId videoId
    manifests expiresIn = Ok token2 ->
  exists body signature1 signature2,
    token1 = Notions.compact encode keyId1 body signature1
    /\ token2 = Notions.compact encode keyId2 body signature2
    /\ get_property body "kid" = None.
Proof.
  intros H1 H2.
  apply sign_inv in H1 as (e1 & s1 & Hspan1 & _ & _ & Ht1).
  apply sign_inv in H2 as (e2 & s2 & Hspan2 & _ & _ & Ht2).
  rewrite Hspan1 in Hspan2. injection Hspan2 as <-.
  eexists _, s1, s2. split; [exact Ht1|]. split; [exact Ht2|reflexivity].
Qed.

(** X7. The create-jwt command checks [expiresIn] with [checkExpiresIn],
    which reads a string of digits as seconds, but hands the string itself
    to [sign]: with a duration parser that reads bare digits as
    milliseconds, as [ms] does, the token of [expiresIn = v] (digits)
    expires [v / 1000] whole seconds after [iat], not [v] seconds.  This
    is stated where binary64 computes [iat + v / 1000] without loss: the
    clock is not negative and the expiration stays below 2^43 seconds. *)
Theorem create_jwt_reads_digits_as_milliseconds
    (argv : Cli.CreateJwtArguments) (token : string) :
  isNumeric (Cli.jwt_expiresIn argv) = true ->
  ms (Cli.jwt_expiresIn argv)
  = Ok (MsNumber
          (of_Z (decimal_value (list_ascii_of_string (Cli.jwt_expiresIn argv))))) ->
  (0 <= now)%Z ->
  (now / 1000
   + decimal_value (list_ascii_of_string (Cli.jwt_expiresIn argv)) / 1000
   < 2 ^ 43)%Z ->
  Cli.create_jwt_handler ms now encode jwa readFile argv = Ok token ->
  let v := decimal_value (list_ascii_of_string (Cli.jwt_expiresIn argv)) in
  Cli.create_jwt_check ms argv = Ok argv
  /\ checkExpiresIn ms (Cli.jwt_expiresIn argv) = Ok (of_Z v)
  /\ exists signature,
       token = Notions.compact encode (Cli.jwt_keyId argv)
                 (Notions.token_body (Cli.jwt_partnerId argv)
                    (Cli.jwt_videoId argv) (Cli.jwt_customerId argv)
                    ("man", JStrings (Cli.jwt_manifest argv))
                    (now / 1000) (of_Z (now / 1000 + v / 1000)))
                 signature.
Proof.
  intros Hs Hms Hnow Hsum Hrun. cbv zeta.
  pose proof (decimal_value_nonneg _ (isNumeric_all_digits _ Hs)) as H0.
  set (v := decimal_value (list_ascii_of_string (Cli.jwt_expiresIn argv))) in *.
  assert (Hiat : (0 <= now / 1000)%Z) by (apply Z.div_pos; lia).
  assert (Hv : (v < 2 ^ 53)%Z).
  { pose proof (Z.div_mod v 1000 ltac:(lia)).
    pose proof (Z.mod_pos_bound v 1000 ltac:(lia)). lia. }
  assert (Hr : checkExpiresIn ms (Cli.jwt_expiresIn argv) = Ok (of_Z v)).
  { destruct (resolvers_on_digits ms now _ Hs) as [_ ->].
    rewrite (parseInt10_numeric _ Hs). fold v.
    rewrite number_of_Z_small by lia. reflexivity. }
  split; [unfold Cli.create_jwt_check; now rewrite Hr|]. split; [exact Hr|].
  apply cli_create_jwt_inv in Hrun as (key & _ & Hsign).
  apply sign_inv in Hsign as (exp & sg & Hspan & _ & _ & Htok).
  exists sg.
  rewrite (timespan_of_whole_milliseconds _ v _ Hms Hiat H0 Hsum) in Hspan.
  assert (E : exp = of_Z (now / 1000 + v / 1000)) by congruence.
  rewrite <- E. exact Htok.
Qed.

(** X8. The create-jwt command of the stand-alone script resolves
    [expiresIn] first and signs the number: the token of a string of
    digits of value [v] expires [v] seconds after [iat].  This is stated
    where binary64 adds the two without loss: the clock is not negative
    and the expiration stays below 2^53. *)
Theorem script_create_jwt_reads_digits_as_seconds
    (argv : Script.CreateJwtArguments) (token : string) :
  isNumeric (Script.jwt_expiresIn argv) = true ->
  (0 <= now)%Z ->
  (now / 1000
   + decimal_value (list_ascii_of_string (Script.jwt_expiresIn argv))
   < 2 ^ 53)%Z ->
  Script.create_jwt_handler ms now encode jwa readFile argv = Ok token ->
  let v := decimal_value (list_ascii_of_string (Script.jwt_expiresIn argv)) in
  exists signature,
    token = Notions.compact encode (Script.jwt_keyId argv)
              (Notions.token_body (Script.jwt_partnerId argv)
                 (Script.jwt_videoId argv) (Script.jwt_customerId argv)
                 ("man", JStrings (Script.jwt_manifest argv))
                 (now / 1000) (of_Z (now / 1000 + v)))
              signature.
Proof.
  intros Hs Hnow Hsum Hrun. cbv zeta.
  pose proof (decimal_value_nonneg _ (isNumeric_all_digits _ Hs)) as H0.
  set (v := decimal_value (list_ascii_of_string (Script.jwt_expiresIn argv)))
    in *.
  assert (Hiat : (0 <= now / 1000)%Z) by (apply Z.div_pos; lia).
  apply script_create_jwt_inv in Hrun as (n & key & Hn & _ & Hsign).
  destruct (resolvers_on_digits ms now _ Hs) as [_ Hr].
  rewrite Hr, (parseInt10_numeric _ Hs) in Hn. fold v in Hn.
  rewrite number_of_Z_small in Hn by lia.
  assert (En : n = of_Z v) by congruence. subst n.
  apply sign_inv in Hsign as (exp & sg & Hspan & _ & _ & Htok).
  exists sg.
  rewrite timespan_of_whole_seconds in Hspan by lia.
  assert (E : exp = of_Z (now / 1000 + v)) by congruence.
  rewrite <- E. exact Htok.
Qed.

(** X9. On a duration of a whole number [d] of milliseconds the two
    create-jwt commands sign the same expiration, [d / 1000] whole seconds
    after [iat]: resolving the string to whole seconds and adding them to
    [iat], as the script does, gives what flooring [iat] plus the
    milliseconds over 1000 gives, as [sign] does on the string itself.
    This is stated where binary64 computes both without loss: [d] and the
    clock are not negative and the expiration stays below 2^43 seconds.
    (On a fraction of a millisecond the two can differ by a second, see
    [create_jwt_commands_differ_on_a_fraction].) *)
Theorem create_jwt_commands_agree_on_durations
    (argv : Cli.CreateJwtArguments) (argv' : Script.CreateJwtArguments)
    (d : Z) (token token' : string) :
  Script.jwt_expiresIn argv' = Cli.jwt_expiresIn argv ->
  isNumeric (Cli.jwt_expiresIn argv) = false ->
  ms (Cli.jwt_expiresIn argv) = Ok (MsNumber (of_Z d)) ->
  (0 <= now)%Z -> (0 <= d)%Z -> (now / 1000 + d / 1000 < 2 ^ 43)%Z ->
  Cli.create_jwt_handler ms now encode jwa readFile argv = Ok token ->
  Script.create_jwt_handler ms now encode jwa readFile argv' = Ok token' ->
  exists signature signature',
    let exp := of_Z (now / 1000 + d / 1000) in
    token = Notions.compact encode (Cli.jwt_keyId argv)
              (Notions.token_body (Cli.jwt_partnerId argv)
                 (Cli.jwt_videoId argv) (Cli.jwt_customerId argv)
                 ("man", JStrings (Cli.jwt_manifest argv))
                 (now / 1000) exp)
              signature
    /\ token' = Notions.compact encode (Script.jwt_keyId argv')
                  (Notions.token_body (Script.jwt_partnerId argv')
                     (Script.jwt_videoId argv') (Script.jwt_customerId argv')
                     ("man", JStrings (Script.jwt_manifest argv'))
                     (now / 1000) exp)
                  signature'.
Proof.
  intros Hsame Hs Hms Hnow H0 Hsum Hrun Hrun'. cbv zeta.
  assert (Hiat : (0 <= now / 1000)%Z) by (apply Z.div_pos; lia).
  assert (Hk : (0 <= d / 1000)%Z) by (apply Z.div_pos; lia).
  assert (Hd : (d < 2 ^ 53)%Z).
  { pose proof (Z.div_mod d 1000 ltac:(lia)).
    pose proof (Z.mod_pos_bound d 1000 ltac:(lia)). lia. }
  apply cli_create_jwt_inv in Hrun as (key & _ & Hsign).
  apply sign_inv in Hsign as (exp & sg & Hspan & _ & _ & Htok).
  apply script_create_jwt_inv in Hrun' as (n & key' & Hn & _ & Hsign').
  apply sign_inv in Hsign' as (exp' & sg' & Hspan' & _ & _ & Htok').
  exists sg, sg'.
  rewrite Hsame in Hn.
  rewrite (checkExpiresIn_whole_milliseconds _ d Hs Hms) in Hn by lia.
  assert (En : n = of_Z (d / 1000)) by congruence. subst n.
  rewrite (timespan_of_whole_milliseconds _ d _ Hms Hiat H0 Hsum) in Hspan.
  rewrite timespan_of_whole_seconds in Hspan' by lia.
  assert (E : exp = of_Z (now / 1000 + d / 1000)) by congruence.
  assert (E' : exp' = of_Z (now / 1000 + d / 1000)) by congruence.
  rewrite <- E at 1. rewrite <- E'. split; assumption.
Qed.

End SigningProperties.

Section HandlerProperties.

Variable ms : string -> result ms_value.
Variable now : Z.
Variable encode : object -> string.
Variable jwa : string -> string -> string -> result string.
Variable readFile : string -> result string.

(** [jsonwebtoken] turns down a number of seconds that is not whole. *)
Lemma sign_rejects_non_integer this keyId customerId videoId manifests n :
  isInteger n = false ->
  HiveJwtCreator.sign ms now encode jwa this keyId customerId videoId
    manifests (Num n) = Throw (Error Jsonwebtoken.expiresIn_invalid).
Proof.
  intros H. unfold HiveJwtCreator.sign, Jsonwebtoken.sign.
  cbn [Jsonwebtoken.expiresIn]. now rewrite H.
Qed.

Lemma signReporting_rejects_non_integer this keyId customerId videoId n e :
  isInteger n = false ->
  HiveJwtCreator.signReporting ms now encode jwa this keyId customerId
    videoId (Num n) e = Throw (Error Jsonwebtoken.expiresIn_invalid).
Proof.
  intros H. unfold HiveJwtCreator.signReporting, Jsonwebtoken.sign.
  cbn [Jsonwebtoken.expiresIn]. now rewrite H.
Qed.

(** X10. An [expiresIn] that [checkExpiresIn] resolves to an infinite
    number, as it does for a string of digits beyond the range of a
    double, passes the check of the reporting-url command and of the
    script's create-jwt command, but no token is signed for it: with the
    key file read and the endpoint accepted, both handlers fail with the
    error of [jsonwebtoken] about [expiresIn]. *)
Theorem infinite_expiresIn_is_not_signed (s : string) (n : number) :
  checkExpiresIn ms s = Ok n ->
  isFinite n = false ->
  (forall file partnerId customerId keyId videoId endpoint key,
     readFile file = Ok key ->
     checkEndpoint endpoint = Ok endpoint ->
     let argv := Cli.mkReportingUrl file partnerId customerId keyId s
                   videoId endpoint in
     Cli.reporting_url_check ms argv = Ok argv
     /\ Cli.reporting_url_handler ms now encode jwa readFile argv
        = Throw (Error Jsonwebtoken.expiresIn_invalid))
  /\ (forall file partnerId customerId keyId videoId manifest key,
        readFile file = Ok key ->
        let argv := Script.mkCreateJwt file partnerId customerId keyId s
                      videoId manifest in
        Script.create_jwt_check ms argv = Ok argv
        /\ Script.create_jwt_handler ms now encode jwa readFile argv
           = Throw (Error Jsonwebtoken.expiresIn_invalid)).
Proof.
  intros Hn Hinf.
  assert (Hint : isInteger n = false).
  { destruct n as [q| | |]; try reflexivity.
    unfold isFinite in Hinf. unfold isInteger. now rewrite Hinf. }
  split.
  - intros file partnerId customerId keyId videoId endpoint key Hkey Hend.
    cbv zeta. unfold Cli.reporting_url_check, Cli.reporting_url_handler,
      HiveJwtCreator.create.
    cbn [Cli.url_expiresIn Cli.url_endpoint].
    rewrite Hn, Hkey, Hend. cbn [bind try_catch].
    now rewrite (signReporting_rejects_non_integer _ _ _ _ _ _ Hint).
  - intros file partnerId customerId keyId videoId manifest key Hkey.
    cbv zeta. unfold Script.create_jwt_check, Script.create_jwt_handler,
      HiveJwtCreator.create.
    cbn [Script.jwt_expiresIn Script.jwt_file Script.jwt_partnerId].
    rewrite Hn, Hkey. cbn [bind try_catch].
    now rewrite (sign_rejects_non_integer _ _ _ _ _ _ Hint).
Qed.

(** X11. A key file that cannot be read makes the create-jwt handler fail
    with an [AggregateError] that names the file and holds the error of the
    read as its one cause, whatever the other arguments.  The reporting-url
    handler resolves [expiresIn] first: it fails with the error of
    [checkExpiresIn] without regard to the file, and with the same
    [AggregateError] once [expiresIn] resolves, even for an endpoint that
    [checkEndpoint] would turn down. *)
Theorem unreadable_key_file_is_reported (file : string) (ex : exn) :
  readFile file = Throw ex ->
  let wrapped := AggregateError [ex] ("Could not read file " ++ file) in
  (forall partnerId,
     HiveJwtCreator.create readFile partnerId file = Throw wrapped)
  /\ (forall partnerId customerId keyId expiresIn videoId manifest eventName
             regexes,
        Cli.create_jwt_handler ms now encode jwa readFile
          (Cli.mkCreateJwt file partnerId customerId keyId expiresIn videoId
             manifest eventName regexes) = Throw wrapped)
  /\ (forall partnerId customerId keyId expiresIn videoId endpoint,
        Cli.reporting_url_handler ms now encode jwa readFile
          (Cli.mkReportingUrl file partnerId customerId keyId expiresIn
             videoId endpoint)
        = match checkExpiresIn ms expiresIn with
          | Ok _ => Throw wrapped
          | Throw e => Throw e
          end).
Proof.
  intros Hf. cbv zeta. repeat split.
  - intros p. unfold HiveJwtCreator.create. now rewrite Hf.
  - intros. unfold Cli.create_jwt_handler, HiveJwtCreator.create.
    now rewrite Hf.
  - intros. unfold Cli.reporting_url_handler, HiveJwtCreator.create.
    destruct (checkExpiresIn ms expiresIn); cbn [bind]; [|reflexivity].
    now rewrite Hf.
Qed.

End HandlerProperties.

(* ===================================================================== *)
(** ** Further properties: the registry client and the key commands *)
(* ===================================================================== *)

Lemma checkEndpoint_inv (endpoint e : string) :
  checkEndpoint endpoint = Ok e ->
  e = endpoint /\ (endpoint = "prod" \/ endpoint = "test").
Proof.
  unfold checkEndpoint.
  destruct (String.eqb_spec endpoint "prod") as [->|_];
    [intros [= <-]; split; [reflexivity|now left]|].
  destruct (String.eqb_spec endpoint "test") as [->|_];
    [intros [= <-]; split; [reflexivity|now right]|].
  discriminate.
Qed.

Lemma checkPartnerToken_inv (token : option string) :
  checkPartnerToken token = Ok tt ->
  exists t, token = Some t /\ t <> EmptyString.
Proof.
  destruct token as [t|]; [|discriminate]. unfold checkPartnerToken.
  destruct (String.eqb_spec t EmptyString); [discriminate|].
  intros _. now exists t.
Qed.

(** X12. A client built for an endpoint that [checkEndpoint] accepts talks
    to one of two base URLs, the production one exactly for [prod]; it is
    bound to the partner id it was given and sends the partner token in the
    [X-Hive-Partner-Token] header of every request. *)
Theorem client_of_checked_endpoint (partnerId partnerToken endpoint e : string) :
  checkEndpoint endpoint = Ok e ->
  let this := C.new partnerId partnerToken e in
  (C.baseURL (C.client this) = Notions.prod_url
   \/ C.baseURL (C.client this) = Notions.test_url)
  /\ (C.baseURL (C.client this) = Notions.prod_url <-> endpoint = "prod")
  /\ C.partnerId this = partnerId
  /\ C.headers (C.client this)
     = [("X-Hive-Partner-Token", partnerToken);
        ("Content-Type", "application/json")].
Proof.
  intros H. apply checkEndpoint_inv in H as [-> [->| ->]]; cbv zeta.
  - split; [now left|]. repeat split; reflexivity.
  - split; [now right|]. repeat split; try reflexivity; discriminate.
Qed.

Section ClientProperties.

Variable ms : string -> result ms_value.
Variable now : Z.
Variable axios : C.Axios -> C.request -> result axios_response.

(** X13. A call of [get], [list], [create] or [delete] sends at most one
    request: nothing is retried, whatever the transport answers.  A GET or
    a DELETE goes to a path under [/publickey/] followed by the partner id
    of the client, a POST to [/publickey].  The call returns exactly when
    it sent a request and the transport answered it. *)
Theorem crud_calls_send_one_scoped_request (this : C.t)
    (reqs : list C.request) (out : option exn) :
  Spec.crud_call ms now axios this reqs out ->
  (length reqs <= 1)%nat
  /\ (forall req, In req reqs ->
        match req with
        | C.POST url _ => url = "/publickey"
        | C.GET url | C.DELETE url =>
            exists rest, url = "/publickey/" ++ C.partnerId this ++ rest
        end)
  /\ (out = None <->
      exists req res, reqs = [req] /\ axios (C.client this) req = Ok res).
Proof.
  intros Hcall.
  destruct Hcall as [keyId|d|p keyId x m expiration|keyId];
    subst c; unfold Spec.thrown, C.outcome, C.sent.
  - rewrite get_unfold. cbv zeta.
    destruct (axios _ _) as [res|e] eqn:Hax; cbn [fst snd length].
    + split; [lia|]. split.
      * intros req [<-|[]]. now eexists.
      * split; [intros _; eauto|reflexivity].
    + destruct (@axiosErrorHandler_throws http_data this e (Some keyId))
        as [x ->]. cbn [snd]. split; [lia|]. split.
      * intros req [<-|[]]. now eexists.
      * split; [discriminate|].
        intros (req & res & [= <-] & H).
        enough (Throw e = Ok res) by discriminate. rewrite <- Hax. exact H.
  - rewrite list_unfold. cbv zeta.
    destruct (axios _ _) as [res|e] eqn:Hax; cbn [fst snd length].
    + split; [lia|]. split.
      * intros req [<-|[]]. now eexists.
      * split; [intros _; eauto|reflexivity].
    + destruct (@axiosErrorHandler_throws http_data this e None) as [x ->].
      cbn [snd]. split; [lia|]. split.
      * intros req [<-|[]]. now eexists.
      * split; [discriminate|].
        intros (req & res & [= <-] & H).
        enough (Throw e = Ok res) by discriminate. rewrite <- Hax. exact H.
  - rewrite create_unfold.
    destruct (match expiration with Str s => _ | Num n => _ end) as [exp|e].
    + cbv zeta.
      destruct (axios _ _) as [res|e] eqn:Hax; cbn [fst snd length].
      * split; [lia|]. split.
        -- intros req [<-|[]]. reflexivity.
        -- split; [intros _; eauto|reflexivity].
      * destruct (@axiosErrorHandler_throws unit this e (Some keyId))
          as [y ->]. cbn [snd]. split; [lia|]. split.
        -- intros req [<-|[]]. reflexivity.
        -- split; [discriminate|].
           intros (req & res & [= <-] & H).
        enough (Throw e = Ok res) by discriminate. rewrite <- Hax. exact H.
    + destruct (@axiosErrorHandler_throws unit this e (Some keyId))
        as [y ->]. cbn [fst snd length]. split; [lia|]. split.
      * intros req [].
      * split; [discriminate|]. intros (req & res & [=] & _).
  - rewrite delete_unfold. cbv zeta.
    destruct (axios _ _) as [res|e] eqn:Hax; cbn [fst snd length].
    + split; [lia|]. split.
      * intros req [<-|[]]. now eexists.
      * split; [intros _; eauto|reflexivity].
    + destruct (@axiosErrorHandler_throws unit this e None) as [x ->].
      cbn [snd]. split; [lia|]. split.
      * intros req [<-|[]]. now eexists.
      * split; [discriminate|].
        intros (req & res & [= <-] & H).
        enough (Throw e = Ok res) by discriminate. rewrite <- Hax. exact H.
Qed.

End ClientProperties.

Section CommandProperties.

Variable ms : string -> result ms_value.
Variable axios : C.Axios -> C.request -> result axios_response.
Variable HiveKeyPair : Type.
Variable readFromFile : string -> result HiveKeyPair.
Variable exportPublicKey : HiveKeyPair -> Commands.PublicKey.

(** X14. The check of publish-key passes exactly when the endpoint is
    [prod] or [test], the partner token is set and not empty, and the
    expiration resolves; it then returns the arguments unchanged.  The
    first of these that fails gives the error: the endpoint before the
    token, the token before the expiration. *)
Theorem publish_key_check_passes_iff (now : Z) (token : option string)
    (argv : Commands.PublishKeyArguments) :
  let check := Commands.publish_key_check ms now token argv in
  let endpoint := Commands.pub_endpoint argv in
  (Notions.accepts check = true <->
   (endpoint = "prod" \/ endpoint = "test")
   /\ (exists t, token = Some t /\ t <> EmptyString)
   /\ Notions.accepts
        (checkExpiration ms now (Commands.pub_expiration argv)) = true)
  /\ (forall argv', check = Ok argv' -> argv' = argv)
  /\ (endpoint <> "prod" -> endpoint <> "test" ->
      check = Throw (Error ("Invalid endpoint: " ++ endpoint)))
  /\ (endpoint = "prod" \/ endpoint = "test" ->
      token = None \/ token = Some EmptyString ->
      check = Throw (Error "No HIVE_PARTNER_TOKEN environmental variable set")).
Proof.
  cbv zeta. unfold Commands.publish_key_check.
  destruct (checkEndpoint (Commands.pub_endpoint argv)) as [e|ex] eqn:He.
  - apply checkEndpoint_inv in He as [-> Hend]. cbn [bind].
    destruct (checkPartnerToken token) as [[]|ex] eqn:Ht.
    + apply checkPartnerToken_inv in Ht as (t & -> & Hne). cbn [bind].
      destruct (checkExpiration ms now _) as [exp|ex]; cbn [bind Notions.accepts].
      * repeat split; eauto; try congruence.
        -- destruct Hend; congruence.
        -- intros _ [[=]|[= ->]]. now contradiction Hne.
      * repeat split; try discriminate; try congruence.
        -- intros (_ & _ & [=]).
        -- destruct Hend; congruence.
        -- intros _ [[=]|[= ->]]. now contradiction Hne.
    + cbn [bind Notions.accepts].
      assert (Hex : ex = Error "No HIVE_PARTNER_TOKEN environmental variable set").
      { unfold checkPartnerToken in Ht. destruct token as [t|]; [|congruence].
        destruct (String.eqb t EmptyString); congruence. }
      subst ex. repeat split; try discriminate; try congruence.
      * intros (_ & (t & -> & Hne) & _). unfold checkPartnerToken in Ht.
        apply String.eqb_neq in Hne. rewrite Hne in Ht. discriminate.
      * destruct Hend; congruence.
  - cbn [bind Notions.accepts]. unfold checkEndpoint in He.
    destruct (String.eqb_spec (Commands.pub_endpoint argv) "prod") as [E|N1];
      [rewrite E in He; discriminate|].
    destruct (String.eqb_spec (Commands.pub_endpoint argv) "test") as [E|N2];
      [rewrite E in He; discriminate|].
    cbn [orb] in He. injection He as <-.
    repeat split; try discriminate; try congruence.
    + intros ([E|E] & _); contradiction.
    + intros [E|E]; contradiction.
Qed.

(** X15. Once the check of publish-key has passed, the handler, run at any
    later clock with the token the check saw, sends one request: the POST
    of a payload with the partner id and key id of the command, the
    exponent and the modulus of the exported key each in its field, and the
    expiration resolved at that clock.  It never fails on the expiration,
    and it prints the key when the registry accepts the request. *)
Theorem publish_key_sends_the_checked_key (now_check now_run : Z)
    (t : string) (argv argv' : Commands.PublishKeyArguments)
    (keyPair : HiveKeyPair) :
  Commands.publish_key_check ms now_check (Some t) argv = Ok argv' ->
  readFromFile (Commands.pub_file argv) = Ok keyPair ->
  let c := Commands.publish_key_handler ms now_run axios HiveKeyPair
             readFromFile exportPublicKey t argv in
  let this := C.new (Commands.pub_partnerId argv) t
                (Commands.pub_endpoint argv) in
  exists exp,
    checkExpiration ms now_run (Commands.pub_expiration argv) = Ok exp
    /\ (C.baseURL (C.client this) = Notions.prod_url
        \/ C.baseURL (C.client this) = Notions.test_url)
    /\ let req :=
         C.POST "/publickey"
           (C.mkPayload (Commands.pub_partnerId argv) (Commands.pub_keyId argv)
              (Commands.exponent (exportPublicKey keyPair))
              (Commands.modulus (exportPublicKey keyPair)) exp) in
       C.sent c = [req]
       /\ (forall res,
             axios (C.client this) req = Ok res ->
             C.outcome c
             = Ok ("Created key: " ++ Commands.pub_partnerId argv ++ "/"
                   ++ Commands.pub_keyId argv)).
Proof.
  intros Hcheck Hkey. cbv zeta.
  unfold Commands.publish_key_check in Hcheck.
  destruct (checkEndpoint (Commands.pub_endpoint argv)) as [e|ex] eqn:He;
    cbn [bind] in Hcheck; [|discriminate].
  destruct (checkPartnerToken (Some t)) as [[]|ex]; cbn [bind] in Hcheck;
    [|discriminate].
  destruct (checkExpiration ms now_check _) as [exp0|ex] eqn:Hexp0;
    cbn [bind] in Hcheck; [|discriminate].
  assert (Hacc : Notions.accepts
                   (checkExpiration ms now_run (Commands.pub_expiration argv))
                 = true).
  { rewrite checkExpiration_accepts,
      <- (checkExpiration_accepts ms now_check), Hexp0. reflexivity. }
  destruct (checkExpiration ms now_run _) as [exp|ex] eqn:Hexp;
    [|discriminate].
  exists exp. split; [reflexivity|].
  pose proof (checkEndpoint_inv _ _ He) as [-> Hend].
  split; [destruct Hend as [-> | ->]; [now left|now right]|].
  unfold Commands.publish_key_handler. rewrite He, Hkey.
  unfold C.io_lift. cbn [C.io_bind].
  rewrite create_unfold, Hexp. cbv zeta.
  destruct (axios _ _) as [res|ex] eqn:Hax.
  - split; [reflexivity|]. intros res' _. reflexivity.
  - destruct (@axiosErrorHandler_throws unit
                (C.new (Commands.pub_partnerId argv) t
                   (Commands.pub_endpoint argv)) ex
                (Some (Commands.pub_keyId argv))) as [y Hy].
    rewrite Hy. split; [reflexivity|]. intros res' [=].
Qed.

(** X16. With an accepted endpoint the delete-key handler sends the one
    DELETE of [/publickey/<partnerId>/<keyId>] and prints [Deleted key:
    <partnerId>/<keyId>] when the registry answers.  On a 404 it throws the
    not-found error, whose message reads
    [Public key not found: <partnerId>/undefined]: the key id the user
    gave is not in it. *)
Theorem delete_key_handler_outcomes (token : string)
    (argv : Commands.KeyArguments) :
  checkEndpoint (Commands.key_endpoint argv) = Ok (Commands.key_endpoint argv) ->
  let c := Commands.delete_key_handler axios token argv in
  let this := C.new (Commands.key_partnerId argv) token
                (Commands.key_endpoint argv) in
  let req := C.DELETE ("/publickey/" ++ Commands.key_partnerId argv ++ "/"
                       ++ Commands.key_keyId argv) in
  C.sent c = [req]
  /\ (forall res,
        axios (C.client this) req = Ok res ->
        C.outcome c
        = Ok ("Deleted key: " ++ Commands.key_partnerId argv ++ "/"
              ++ Commands.key_keyId argv))
  /\ (forall code response,
        axios (C.client this) req = Throw (AxiosError code (Some response)) ->
        status response = 404%Z ->
        exists e,
          C.outcome c = Throw e
          /\ message e
             = "Public key not found: " ++ Commands.key_partnerId argv
               ++ "/undefined").
Proof.
  intros He. cbv zeta. unfold Commands.delete_key_handler. rewrite He.
  unfold C.io_lift. cbn [C.io_bind]. rewrite delete_unfold. cbv zeta.
  change (C.partnerId (C.new (Commands.key_partnerId argv) token
                         (Commands.key_endpoint argv)))
    with (Commands.key_partnerId argv).
  destruct (axios _ _) as [res|ex] eqn:Hax.
  - split; [reflexivity|]. split; [reflexivity|]. intros code response [=].
  - destruct (@axiosErrorHandler_throws unit
                (C.new (Commands.key_partnerId argv) token
                   (Commands.key_endpoint argv)) ex None) as [y Hy].
    rewrite Hy. split; [reflexivity|]. split; [intros res [=]|].
    intros code response [= ->] Hst.
    rewrite (axiosErrorHandler_404 _ _ _ _ Hst) in Hy.
    injection Hy as <-. eexists. split; reflexivity.
Qed.

End CommandProperties.

(** *** The further properties on the concrete environment *)

Lemma signReporting_token_contents_witness :
  exists (exp : number) (signature : string),
    let body := Notions.token_body "p1" "v1" "c1"
                  ("act", JString "reporting") (Sample.now / 1000) exp in
    (isInteger exp = true \/ exp = PosInf \/ exp = NegInf)
    /\ ((0 <= Sample.now < 2 ^ 53)%Z -> isInteger exp = true)
    /\ get_property body "man" = None
    /\ Sample.jwa "RS256" "PEM"
         (Sample.encode (Spec.jwt_header "k1") ++ "." ++ Sample.encode body)
       = Ok signature
    /\ "https://api-test.hivestreaming.com/v1/url-redirect/adminportal-jwt/{alg:RS256,typ:JWT,kid:k1}.{iss:p1,sub:v1,ver:1.0,aud:https://hivestreaming.com,cid:c1,act:reporting,iat:1700000000,exp:1700036000}.sig(RS256)"
       = Notions.reporting_url "test"
           (Notions.compact Sample.encode "k1" body signature).
Proof.
  apply (signReporting_token_contents Sample.ms Sample.now Sample.encode
           Sample.jwa (HiveJwtCreator.mk "p1" "PEM") "k1" "c1" "v1"
           (Str "10h") "test").
  - exact sample_ms_finite.
  - reflexivity.
Defined.

Lemma sign_key_id_only_in_header_witness :
  exists body signature1 signature2,
    "{alg:RS256,typ:JWT,kid:k1}.{iss:p1,sub:v1,ver:1.0,aud:https://hivestreaming.com,cid:c1,man:[m1],iat:1700000000,exp:1700036000}.sig(RS256)"
    = Notions.compact Sample.encode "k1" body signature1
    /\ "{alg:RS256,typ:JWT,kid:k2}.{iss:p1,sub:v1,ver:1.0,aud:https://hivestreaming.com,cid:c1,man:[m1],iat:1700000000,exp:1700036000}.sig(RS256)"
       = Notions.compact Sample.encode "k2" body signature2
    /\ get_property body "kid" = None.
Proof.
  apply (sign_key_id_only_in_header Sample.ms Sample.now Sample.encode
           Sample.jwa (HiveJwtCreator.mk "p1" "PEM") "k1" "k2" "c1" "v1"
           ["m1"] (Str "10h")); reflexivity.
Defined.

Lemma create_jwt_reads_digits_as_milliseconds_witness :
  let argv := Cli.mkCreateJwt "private.pem" "p1" "c1" "k1" "3600" "v1"
                ["m1"] None None in
  Cli.create_jwt_check SamplePlain.ms argv = Ok argv
  /\ checkExpiresIn SamplePlain.ms "3600" = Ok (of_Z 3600)
  /\ exists signature,
       "{alg:RS256,typ:JWT,kid:k1}.{iss:p1,sub:v1,ver:1.0,aud:https://hivestreaming.com,cid:c1,man:[m1],iat:1700000000,exp:1700000003}.sig(RS256)"
       = Notions.compact Sample.encode "k1"
           (Notions.token_body "p1" "v1" "c1" ("man", JStrings ["m1"])
              (Sample.now / 1000) (of_Z (Sample.now / 1000 + 3600 / 1000)))
           signature.
Proof.
  apply (create_jwt_reads_digits_as_milliseconds SamplePlain.ms Sample.now
           Sample.encode Sample.jwa Sample.readFile
           (Cli.mkCreateJwt "private.pem" "p1" "c1" "k1" "3600" "v1" ["m1"]
              None None));
    try reflexivity; vm_compute; congruence.
Defined.

Lemma script_create_jwt_reads_digits_as_seconds_witness :
  exists signature,
    "{alg:RS256,typ:JWT,kid:k1}.{iss:p1,sub:v1,ver:1.0,aud:https://hivestreaming.com,cid:c1,man:[m1],iat:1700000000,exp:1700003600}.sig(RS256)"
    = Notions.compact Sample.encode "k1"
        (Notions.token_body "p1" "v1" "c1" ("man", JStrings ["m1"])
           (Sample.now / 1000) (of_Z (Sample.now / 1000 + 3600)))
        signature.
Proof.
  apply (script_create_jwt_reads_digits_as_seconds SamplePlain.ms Sample.now
           Sample.encode Sample.jwa Sample.readFile
           (Script.mkCreateJwt "private.pem" "p1" "c1" "k1" "3600" "v1"
              ["m1"]));
    try reflexivity; vm_compute; congruence.
Defined.

Lemma create_jwt_commands_agree_on_durations_witness :
  exists signature signature',
    let exp := of_Z (Sample.now / 1000 + 36000000 / 1000) in
    "{alg:RS256,typ:JWT,kid:k1}.{iss:p1,sub:v1,ver:1.0,aud:https://hivestreaming.com,cid:c1,man:[m1],iat:1700000000,exp:1700036000}.sig(RS256)"
    = Notions.compact Sample.encode "k1"
        (Notions.token_body "p1" "v1" "c1" ("man", JStrings ["m1"])
           (Sample.now / 1000) exp)
        signature
    /\ "{alg:RS256,typ:JWT,kid:k1}.{iss:p1,sub:v1,ver:1.0,aud:https://hivestreaming.com,cid:c1,man:[m1],iat:1700000000,exp:1700036000}.sig(RS256)"
       = Notions.compact Sample.encode "k1"
           (Notions.token_body "p1" "v1" "c1" ("man", JStrings ["m1"])
              (Sample.now / 1000) exp)
           signature'.
Proof.
  apply (create_jwt_commands_agree_on_durations Sample.ms Sample.now
           Sample.encode Sample.jwa Sample.readFile
           (Cli.mkCreateJwt "private.pem" "p1" "c1" "k1" "10h" "v1" ["m1"]
              None None)
           (Script.mkCreateJwt "private.pem" "p1" "c1" "k1" "10h" "v1" ["m1"])
           36000000%Z);
    try reflexivity; vm_compute; congruence.
Defined.

(** Where binary64 rounds, the two commands part: for [0.99999999999s],
    which [ms] reads as 999.99999999 milliseconds, [sign] on the string
    floors [iat + 0.99999999999], a sum that rounds to [iat + 1], while the
    script floors the duration first and signs [iat]. *)
Example create_jwt_commands_differ_on_a_fraction :
  Cli.create_jwt_handler SamplePlain.ms Sample.now Sample.encode Sample.jwa
    Sample.readFile
    (Cli.mkCreateJwt "private.pem" "p1" "c1" "k1" "0.99999999999s" "v1"
       ["m1"] None None)
  = Ok "{alg:RS256,typ:JWT,kid:k1}.{iss:p1,sub:v1,ver:1.0,aud:https://hivestreaming.com,cid:c1,man:[m1],iat:1700000000,exp:1700000001}.sig(RS256)"
  /\ Script.create_jwt_handler SamplePlain.ms Sample.now Sample.encode
       Sample.jwa Sample.readFile
       (Script.mkCreateJwt "private.pem" "p1" "c1" "k1" "0.99999999999s"
          "v1" ["m1"])
     = Ok "{alg:RS256,typ:JWT,kid:k1}.{iss:p1,sub:v1,ver:1.0,aud:https://hivestreaming.com,cid:c1,man:[m1],iat:1700000000,exp:1700000000}.sig(RS256)".
Proof. vm_compute. split; reflexivity. Qed.

(** Beyond the exact range the expiration of a digit string is rounded:
    [8795093022207999] milliseconds after [iat = 1700000000] is signed as
    8796793022208, and [9007199254740991] seconds after it as
    9007200954740992. *)
Example create_jwt_rounds_large_expirations :
  Cli.create_jwt_handler SamplePlain.ms Sample.now Sample.encode Sample.jwa
    Sample.readFile
    (Cli.mkCreateJwt "private.pem" "p1" "c1" "k1" "8795093022207999" "v1"
       ["m1"] None None)
  = Ok "{alg:RS256,typ:JWT,kid:k1}.{iss:p1,sub:v1,ver:1.0,aud:https://hivestreaming.com,cid:c1,man:[m1],iat:1700000000,exp:8796793022208}.sig(RS256)"
  /\ Script.create_jwt_handler SamplePlain.ms Sample.now Sample.encode
       Sample.jwa Sample.readFile
       (Script.mkCreateJwt "private.pem" "p1" "c1" "k1" "9007199254740991"
          "v1" ["m1"])
     = Ok "{alg:RS256,typ:JWT,kid:k1}.{iss:p1,sub:v1,ver:1.0,aud:https://hivestreaming.com,cid:c1,man:[m1],iat:1700000000,exp:9007200954740992}.sig(RS256)".
Proof. vm_compute. split; reflexivity. Qed.

Lemma infinite_expiresIn_is_not_signed_witness :
  let argv := Cli.mkReportingUrl "private.pem" "p1" "c1" "k1" Sample.nines
                "v1" "test" in
  Cli.reporting_url_check Sample.ms argv = Ok argv
  /\ Cli.reporting_url_handler Sample.ms Sample.now Sample.encode Sample.jwa
       Sample.readFile argv
     = Throw (Error Jsonwebtoken.expiresIn_invalid).
Proof.
  apply (proj1 (infinite_expiresIn_is_not_signed Sample.ms Sample.now
                  Sample.encode Sample.jwa Sample.readFile Sample.nines
                  PosInf ltac:(vm_compute; reflexivity) eq_refl)
           "private.pem" "p1" "c1" "k1" "v1" "test" "PEM");
    reflexivity.
Defined.

Lemma unreadable_key_file_is_reported_witness :
  HiveJwtCreator.create Sample.readFile "p1" "missing.pem"
  = Throw (AggregateError
             [Error "ENOENT: no such file or directory, open missing.pem"]
             "Could not read file missing.pem").
Proof.
  apply (proj1 (unreadable_key_file_is_reported Sample.ms Sample.now
                  Sample.encode Sample.jwa Sample.readFile "missing.pem"
                  (Error "ENOENT: no such file or directory, open missing.pem")
                  eq_refl)).
Defined.

Lemma client_of_checked_endpoint_witness :
  let this := C.new "p1" "secret" "test" in
  (C.baseURL (C.client this) = Notions.prod_url
   \/ C.baseURL (C.client this) = Notions.test_url)
  /\ (C.baseURL (C.client this) = Notions.prod_url <-> "test" = "prod")
  /\ C.partnerId this = "p1"
  /\ C.headers (C.client this)
     = [("X-Hive-Partner-Token", "secret");
        ("Content-Type", "application/json")].
Proof.
  apply (client_of_checked_endpoint "p1" "secret" "test" "test").
  reflexivity.
Defined.

Lemma crud_calls_send_one_scoped_request_witness :
  let c := C.get Sample.axios_ok Sample.registry "k1" in
  (length (C.sent c) <= 1)%nat
  /\ (forall req, In req (C.sent c) ->
        match req with
        | C.POST url _ => url = "/publickey"
        | C.GET url | C.DELETE url =>
            exists rest,
              url = "/publickey/" ++ C.partnerId Sample.registry ++ rest
        end)
  /\ (Spec.thrown c = None <->
      exists req res,
        C.sent c = [req]
        /\ Sample.axios_ok (C.client Sample.registry) req = Ok res).
Proof.
  exact (crud_calls_send_one_scoped_request Sample.ms Sample.now
           Sample.axios_ok Sample.registry _ _
           (Spec.call_get Sample.ms Sample.now Sample.axios_ok
              Sample.registry "k1")).
Defined.

Lemma publish_key_sends_the_checked_key_witness :
  let argv := Commands.mkPublish "private.pem" "p1" "k1" "2 days" "test" in
  let c := Commands.publish_key_handler Sample.ms (Sample.now + 5000)
             Sample.axios_ok string Sample.readFile
             SamplePlain.exportPublicKey "secret" argv in
  let this := C.new "p1" "secret" "test" in
  exists exp,
    checkExpiration Sample.ms (Sample.now + 5000) "2 days" = Ok exp
    /\ (C.baseURL (C.client this) = Notions.prod_url
        \/ C.baseURL (C.client this) = Notions.test_url)
    /\ let req := C.POST "/publickey"
                    (C.mkPayload "p1" "k1" "AQAB" "modulus" exp) in
       C.sent c = [req]
       /\ (forall res,
             Sample.axios_ok (C.client this) req = Ok res ->
             C.outcome c = Ok "Created key: p1/k1").
Proof.
  apply (publish_key_sends_the_checked_key Sample.ms Sample.axios_ok string
           Sample.readFile SamplePlain.exportPublicKey Sample.now
           (Sample.now + 5000) "secret"
           (Commands.mkPublish "private.pem" "p1" "k1" "2 days" "test")
           (Commands.mkPublish "private.pem" "p1" "k1" "2 days" "test") "PEM");
    reflexivity.
Defined.

Lemma delete_key_handler_outcomes_witness :
  let argv := Commands.mkKey "p1" "k1" "test" in
  let c := Commands.delete_key_handler SamplePlain.axios_no_key "secret" argv in
  let this := C.new "p1" "secret" "test" in
  let req := C.DELETE "/publickey/p1/k1" in
  C.sent c = [req]
  /\ (forall res,
        SamplePlain.axios_no_key (C.client this) req = Ok res ->
        C.outcome c = Ok "Deleted key: p1/k1")
  /\ (forall code response,
        SamplePlain.axios_no_key (C.client this) req
        = Throw (AxiosError code (Some response)) ->
        status response = 404%Z ->
        exists e,
          C.outcome c = Throw e
          /\ message e = "Public key not found: p1/undefined").
Proof.
  apply (delete_key_handler_outcomes SamplePlain.axios_no_key "secret"
           (Commands.mkKey "p1" "k1" "test")).
  reflexivity.
Defined.

Example delete_key_missing_key :
  Commands.delete_key_handler SamplePlain.axios_no_key "secret"
    (Commands.mkKey "p1" "k1" "test")
  = ([C.DELETE "/publickey/p1/k1"],
     Throw (HivePublicKeyNotFoundError "p1" None)).
Proof. reflexivity. Qed.
